(** * The SendinBlue (Brevo) backend of django-anymail

    A shallow embedding of [anymail/backends/sendinblue.py]: the payload
    setters, [serialize_data] and [parse_recipient_status], with the
    properties its specification states about them.

    Python dictionaries are finite maps ([gmap string _]); a method that
    mutates [self] is a computation in a state-and-exception monad over the
    payload, in which the state survives a raised exception, as the
    attributes of a Python object do. *)

From Stdlib Require Import Ascii.
From stdpp Require Import gmap strings list fin_maps pretty.

Set Warnings "-register-all,-clear-no-such-hyp".
Set Default Proof Using "Type".

Local Open Scope string_scope.
Local Open Scope list_scope.

(** ** Python values *)

(** [datetime.datetime]: calendar fields, and the UTC offset in minutes of an
    aware value ([None] for a naive one). *)
Record datetime := {
  year : N;
  month : N;
  day : N;
  hour : N;
  minute : N;
  second : N;
  microsecond : N;
  utcoffset : option Z;
}.

(** [datetime.date]: it has an [isoformat] method, which takes no [timespec]. *)
Record date := {
  date_year : N;
  date_month : N;
  date_day : N;
}.

(** The values that [data], the vendor's response and the caller's arguments
    hold. [VHeaders] is requests' [CaseInsensitiveDict]: it is keyed by the
    lower-cased name and keeps the name as it was last written. Numbers are
    integers: a float behaves like [VInt] in every operation below (it is
    true when non-zero, and neither iterable nor subscriptable). *)
Inductive value : Type :=
  | VNone
  | VBool (b : bool)
  | VInt (z : Z)
  | VStr (s : string)
  | VList (l : list value)
  | VDict (d : gmap string value)
  | VHeaders (h : gmap string (string * value))
  | VDatetime (dt : datetime)
  | VDate (d : date).

(** Truth value testing ([if x:], [not x]). *)
Definition truthy (v : value) : bool :=
  match v with
  | VNone => false
  | VBool b => b
  | VInt z => negb (z =? 0)%Z
  | VStr s => negb (String.eqb s "")
  | VList l => match l with [] => false | _ :: _ => true end
  | VDict d => negb (bool_decide (dom d = ∅))
  | VHeaders h => negb (bool_decide (dom h = ∅))
  | VDatetime _ => true
  | VDate _ => true
  end.

Definition ascii_lower (c : ascii) : ascii :=
  let n := nat_of_ascii c in
  if ((65 <=? n) && (n <=? 90))%nat then ascii_of_nat (n + 32) else c.

(** [str.lower()] on a name written in ASCII: the letters A to Z are folded.
    Python folds the letters beyond ASCII as well; the model leaves those as
    they are, so it stands for [str.lower()] on ASCII names only (see
    [is_ascii]). *)
Fixpoint lower (s : string) : string :=
  match s with
  | EmptyString => EmptyString
  | String c r => String (ascii_lower c) (lower r)
  end.

(** The one-character strings that iterating over a [str] yields. *)
Fixpoint chars (s : string) : list string :=
  match s with
  | EmptyString => []
  | String c r => String c EmptyString :: chars r
  end.

(** ** The objects of the framework *)

(** [anymail.utils.EmailAddress]; [display_name] is empty when there is none. *)
Record EmailAddress := {
  display_name : string;
  addr_spec : string;
}.

(** [anymail.utils.Attachment]; [b64content] is its base64 property. *)
Record Attachment := {
  name : option string;
  b64content : string;
  inline : bool;
}.

(** The Django message, opaque to this backend: its attributes. *)
Inductive Message := EmailMessage (attrs : gmap string value).

(** [requests.Response]: the raw body. *)
Record Response := {
  content : string;
}.

(** [EmailBackend]: its settings. [ignore_unsupported_features] is the caller's
    choice to let unsupported features pass (see [unsupported_feature]). *)
Record EmailBackend := {
  api_key : string;
  api_url : string;
  ignore_unsupported_features : bool;
}.

Definition esp_name : string := "SendinBlue".

(** [SendinBluePayload]. [is_batch] is the answer of the inherited
    [is_batch()]; [signalled] is not an attribute of the Python object: it
    lists the features passed to [unsupported_feature], oldest first. *)
Record Payload := {
  backend : EmailBackend;
  is_batch : bool;
  all_recipients : list EmailAddress;
  to_recipients : list EmailAddress;
  data : gmap string value;
  merge_data : gmap string value;
  metadata : gmap string value;
  merge_metadata : gmap string (gmap string value);
  signalled : list string;
}.

(** [anymail.message.AnymailRecipientStatus]. *)
Record AnymailRecipientStatus := {
  message_id : value;
  status : string;
}.

(** ** Exceptions *)

Inductive exn :=
  | KeyError
  | TypeError
  | AttributeError
  | IndexError
  | AssertionError
  | AnymailUnsupportedFeature (feature : string)
  | AnymailSerializationError
  | AnymailRequestsAPIError (description : string) (email_message : Message)
      (payload : Payload) (response : Response) (raised_by : EmailBackend).

Inductive outcome (A : Type) :=
  | Returns (a : A)
  | Raises (e : exn).
Arguments Returns {A} a.
Arguments Raises {A} e.

Global Instance outcome_ret : MRet outcome := fun A a => Returns a.
Global Instance outcome_bind : MBind outcome := fun A B f o =>
  match o with
  | Returns a => f a
  | Raises e => Raises e
  end.

(** [try: o except (handled): handler]. *)
Definition try_except {A} (o : outcome A) (handled : exn -> bool)
    (handler : exn -> outcome A) : outcome A :=
  match o with
  | Returns a => Returns a
  | Raises e => if handled e then handler e else Raises e
  end.

Definition KeyError_or_TypeError (e : exn) : bool :=
  match e with
  | KeyError | TypeError => true
  | _ => false
  end.

Definition AttributeError_or_TypeError (e : exn) : bool :=
  match e with
  | AttributeError | TypeError => true
  | _ => false
  end.

Definition is_api_error (e : exn) : bool :=
  match e with
  | AnymailRequestsAPIError _ _ _ _ _ => true
  | _ => false
  end.

(** ** Operations on values that can raise *)

(** [v[k]] for a string [k]. *)
Definition getitem_str (v : value) (k : string) : outcome value :=
  match v with
  | VDict d =>
      match d !! k with
      | Some x => Returns x
      | None => Raises KeyError
      end
  | VHeaders h =>
      match h !! lower k with
      | Some (_, x) => Returns x
      | None => Raises KeyError
      end
  | _ => Raises TypeError
  end.

(** [v[0]]. *)
Definition getitem_0 (v : value) : outcome value :=
  match v with
  | VList (x :: _) => Returns x
  | VList [] => Raises IndexError
  | VStr (String c _) => Returns (VStr (String c EmptyString))
  | VStr EmptyString => Raises IndexError
  | VDict _ => Raises KeyError
  | VHeaders _ => Raises AttributeError
  | _ => Raises TypeError
  end.

(** [container[k] = x] for a string [k]: the container after the store. *)
Definition setitem_str (container : value) (k : string) (x : value)
    : outcome value :=
  match container with
  | VDict d => Returns (VDict (<[k := x]> d))
  | VHeaders h => Returns (VHeaders (<[lower k := (k, x)]> h))
  | _ => Raises TypeError
  end.

(** The elements [for x in v] runs through. A [dict] yields its keys; the maps
    of this model carry no insertion order, so those come in key order. *)
Definition py_iter (v : value) : outcome (list value) :=
  match v with
  | VList l => Returns l
  | VStr s => Returns (VStr <$> chars s)
  | VDict d => Returns (VStr <$> (map_to_list d).*1)
  | VHeaders h => Returns ((fun kv => VStr kv.2.1) <$> map_to_list h)
  | _ => Raises TypeError
  end.

(** Whether a value can be a dictionary key. *)
Definition hashable (v : value) : bool :=
  match v with
  | VList _ | VDict _ | VHeaders _ => false
  | _ => true
  end.

(** Modelled from the spec: the constructor of the framework's recipient
    status, which is defined in [anymail.message] and not in the file of this
    backend; the spec has it as a vendor message id with a delivery state.
    It takes a message id only if the id can be put in a set, and refuses a
    list or an object with a TypeError; the state queued, the only one this
    backend passes, is among the states it accepts. *)
Definition AnymailRecipientStatus_init (message_id : value) (status : string)
    : outcome AnymailRecipientStatus :=
  if hashable message_id
  then Returns {| message_id := message_id; status := status |}
  else Raises TypeError.

(** [m.get(k)] on a dictionary with string keys: [None] inside [Returns]
    when [k] is not a key. *)
Definition dict_get {A} (m : gmap string A) (k : value) : outcome (option A) :=
  match k with
  | VStr s => Returns (m !! s)
  | _ => if hashable k then Returns None else Raises TypeError
  end.

(** ** [datetime.isoformat(timespec="milliseconds")] *)

(** [n] in decimal on at least [w] digits. *)
Definition zero_pad (w : nat) (n : N) : string :=
  let s := pretty n in
  String.concat "" (replicate (w - String.length s) "0") +:+ s.

Definition isoformat_offset (o : option Z) : string :=
  match o with
  | None => ""
  | Some m =>
      let a := Z.to_N (Z.abs m) in
      (if (m <? 0)%Z then "-" else "+")
        +:+ zero_pad 2 (a / 60)%N +:+ ":" +:+ zero_pad 2 (a mod 60)%N
  end.

(** The standard library's rendering: date, [T], time with the microseconds
    truncated to three digits, and the offset of an aware value. *)
Definition isoformat_milliseconds (dt : datetime) : string :=
  zero_pad 4 (year dt) +:+ "-" +:+ zero_pad 2 (month dt) +:+ "-"
    +:+ zero_pad 2 (day dt) +:+ "T" +:+ zero_pad 2 (hour dt) +:+ ":"
    +:+ zero_pad 2 (minute dt) +:+ ":" +:+ zero_pad 2 (second dt) +:+ "."
    +:+ zero_pad 3 (microsecond dt / 1000)%N
    +:+ isoformat_offset (utcoffset dt).

(** [v.isoformat(timespec="milliseconds")]: a [date] has the method but not
    the keyword, any other value has no such attribute. *)
Definition call_isoformat_milliseconds (v : value) : outcome value :=
  match v with
  | VDatetime dt => Returns (VStr (isoformat_milliseconds dt))
  | VDate _ => Raises TypeError
  | _ => Raises AttributeError
  end.

(** ** Methods of the payload: state and exceptions *)

(** A method of the payload: it returns or raises, and leaves the payload as
    it is at that point. *)
Definition M (A : Type) : Type := Payload -> outcome A * Payload.

Global Instance M_ret : MRet M := fun A a p => (Returns a, p).
Global Instance M_bind : MBind M := fun A B f c p =>
  match c p with
  | (Returns a, p') => f a p'
  | (Raises e, p') => (Raises e, p')
  end.

Definition gets {A} (f : Payload -> A) : M A := fun p => (Returns (f p), p).
Definition modify (f : Payload -> Payload) : M unit :=
  fun p => (Returns tt, f p).
Definition raise {A} (e : exn) : M A := fun p => (Raises e, p).
Definition lift {A} (o : outcome A) : M A := fun p => (o, p).

Definition with_data (f : gmap string value -> gmap string value)
    (p : Payload) : Payload :=
  {| backend := backend p; is_batch := is_batch p;
     all_recipients := all_recipients p; to_recipients := to_recipients p;
     data := f (data p);
     merge_data := merge_data p; metadata := metadata p;
     merge_metadata := merge_metadata p; signalled := signalled p |}.

Definition with_all_recipients (l : list EmailAddress) (p : Payload)
    : Payload :=
  {| backend := backend p; is_batch := is_batch p;
     all_recipients := l; to_recipients := to_recipients p;
     data := data p;
     merge_data := merge_data p; metadata := metadata p;
     merge_metadata := merge_metadata p; signalled := signalled p |}.

Definition with_to_recipients (l : list EmailAddress) (p : Payload) : Payload :=
  {| backend := backend p; is_batch := is_batch p;
     all_recipients := all_recipients p; to_recipients := l;
     data := data p;
     merge_data := merge_data p; metadata := metadata p;
     merge_metadata := merge_metadata p; signalled := signalled p |}.

Definition with_merge_data (m : gmap string value) (p : Payload) : Payload :=
  {| backend := backend p; is_batch := is_batch p;
     all_recipients := all_recipients p; to_recipients := to_recipients p;
     data := data p;
     merge_data := m; metadata := metadata p;
     merge_metadata := merge_metadata p; signalled := signalled p |}.

Definition with_metadata (m : gmap string value) (p : Payload) : Payload :=
  {| backend := backend p; is_batch := is_batch p;
     all_recipients := all_recipients p; to_recipients := to_recipients p;
     data := data p;
     merge_data := merge_data p; metadata := m;
     merge_metadata := merge_metadata p; signalled := signalled p |}.

Definition with_merge_metadata (m : gmap string (gmap string value))
    (p : Payload) : Payload :=
  {| backend := backend p; is_batch := is_batch p;
     all_recipients := all_recipients p; to_recipients := to_recipients p;
     data := data p;
     merge_data := merge_data p; metadata := metadata p;
     merge_metadata := m; signalled := signalled p |}.

Definition with_signalled (l : list string) (p : Payload) : Payload :=
  {| backend := backend p; is_batch := is_batch p;
     all_recipients := all_recipients p; to_recipients := to_recipients p;
     data := data p;
     merge_data := merge_data p; metadata := metadata p;
     merge_metadata := merge_metadata p; signalled := l |}.

(** [self.data[k] = x] *)
Definition data_set (k : string) (x : value) : M unit :=
  modify (with_data (insert k x)).

(** [self.data[k]] *)
Definition data_get (k : string) : M value :=
  d ← gets data;
  match d !! k with
  | Some x => mret x
  | None => raise KeyError
  end.

(** [del self.data[k]] *)
Definition data_del (k : string) : M unit :=
  d ← gets data;
  match d !! k with
  | Some _ => modify (with_data (delete k))
  | None => raise KeyError
  end.

(** [self.data.pop(k, default)] *)
Definition data_pop (k : string) (default : value) : M value :=
  d ← gets data;
  match d !! k with
  | Some x => modify (with_data (delete k));; mret x
  | None => mret default
  end.

(** Modelled from the spec: [unsupported_feature] belongs to the framework's
    base payload. A feature the vendor cannot express is reported through
    a signal that the framework raises or lets pass, as the caller chose
    (section 4.2, failure policy, and section 7): unless the backend ignores
    unsupported features the call raises, otherwise it returns. The
    exception names the feature. *)
Definition unsupported_feature (feature : string) : M unit :=
  modify (fun p => with_signalled (signalled p ++ [feature]) p);;
  b ← gets backend;
  if ignore_unsupported_features b then mret tt
  else raise (AnymailUnsupportedFeature feature).

(** [__init__] up to the call of the base constructor, and [init_payload]. *)
Definition init_payload (b : EmailBackend) (batch : bool) : Payload :=
  {| backend := b; is_batch := batch;
     all_recipients := []; to_recipients := [];
     data := {[ "headers" := VHeaders ∅ ]};
     merge_data := ∅; metadata := ∅; merge_metadata := ∅;
     signalled := [] |}.

Definition email_object (email : EmailAddress) : value :=
  let email_object : gmap string value :=
    {[ "email" := VStr (addr_spec email) ]} in
  VDict (if String.eqb (display_name email) "" then email_object
         else <["name" := VStr (display_name email)]> email_object).

Definition set_from_email (email : EmailAddress) : M unit :=
  data_set "sender" (email_object email).

Definition set_recipients (recipient_type : string)
    (emails : list EmailAddress) : M unit :=
  if bool_decide (recipient_type ∈ ["to"; "cc"; "bcc"]) then
    match emails with
    | [] => mret tt
    | _ :: _ =>
        data_set recipient_type (VList (email_object <$> emails));;
        modify (fun p => with_all_recipients (all_recipients p ++ emails) p);;
        if String.eqb recipient_type "to"
        then modify (with_to_recipients emails)
        else mret tt
    end
  else raise AssertionError.

Definition set_subject (subject : string) : M unit :=
  if String.eqb subject "" then mret tt
  else data_set "subject" (VStr subject).

Definition set_reply_to (emails : list EmailAddress) : M unit :=
  (if bool_decide (1 < length emails) then
     unsupported_feature "multiple reply_to addresses"
   else mret tt);;
  match emails with
  | first :: _ => data_set "replyTo" (email_object first)
  | [] => mret tt
  end.

Definition set_tags (tags : list string) : M unit :=
  match tags with
  | [] => mret tt
  | _ :: _ => data_set "tags" (VList (VStr <$> tags))
  end.

Definition set_template_id (template_id : value) : M unit :=
  data_set "templateId" template_id.

Definition set_text_body (body : string) : M unit :=
  if String.eqb body "" then mret tt
  else data_set "textContent" (VStr body).

Definition set_html_body (body : string) : M unit :=
  if String.eqb body "" then mret tt
  else
    d ← gets data;
    (if bool_decide ("htmlContent" ∈ dom d) then
       unsupported_feature "multiple html parts"
     else mret tt);;
    data_set "htmlContent" (VStr body).

(** The last line is [setdefault] followed by [append]: a value other than a
    list has no [append]. *)
Definition add_attachment (attachment : Attachment) : M unit :=
  let att : value :=
    VDict {[ "name" := VStr (default "" (name attachment));
             "content" := VStr (b64content attachment) ]} in
  (if inline attachment then unsupported_feature "inline attachments"
   else mret tt);;
  d ← gets data;
  match d !! "attachment" with
  | None => data_set "attachment" (VList [att])
  | Some (VList l) => data_set "attachment" (VList (l ++ [att]))
  | Some _ => raise AttributeError
  end.

(** [dict.update]: the keys of [extra] win. *)
Definition set_esp_extra (extra : gmap string value) : M unit :=
  modify (with_data (fun d => extra ∪ d)).

Definition set_merge_data (merge_data : gmap string value) : M unit :=
  modify (with_merge_data merge_data).

Definition set_merge_global_data (merge_global_data : gmap string value)
    : M unit :=
  data_set "params" (VDict merge_global_data).

Definition set_merge_metadata
    (merge_metadata : gmap string (gmap string value)) : M unit :=
  modify (with_merge_metadata merge_metadata).

Definition set_send_at (send_at : value) : M unit :=
  start_time_iso ← lift
    (try_except (call_isoformat_milliseconds send_at)
       AttributeError_or_TypeError
       (fun _ => Returns send_at));
  data_set "scheduledAt" start_time_iso.

(** ** Serialization and the vendor's response *)

Section Backend.

(** The helpers inherited from the framework's requests backend and payload:
    [serialize_json] is [json.dumps] with the framework's error for a value
    that has no JSON form; [deserialize_json_response] decodes the body of a
    response, and raises when it is no JSON. *)
Variable serialize_json : value -> outcome string.
Variable deserialize_json_response :
  EmailBackend -> Response -> Payload -> Message -> outcome value.

(** The right-hand side is evaluated before the subscripted target. *)
Definition set_metadata (metadata : gmap string value) : M unit :=
  s ← lift (serialize_json (VDict metadata));
  headers ← data_get "headers";
  headers' ← lift (setitem_str headers "X-Mailin-custom" (VStr s));
  data_set "headers" headers';;
  modify (with_metadata metadata).

(** One element of the comprehension that builds [messageVersions]. *)
Definition message_version (merge_data : gmap string value) (to : value)
    : outcome value :=
  email ← getitem_str to "email";
  params ← dict_get merge_data email;
  mret (VDict {[ "to" := VList [to]; "params" := default VNone params ]}).

(** The loop over [data["messageVersions"]]: [done] are the versions already
    visited, [todo] those to come; a version is a dictionary of the list
    held by [data], so storing its headers changes that list in place. *)
Fixpoint recipient_headers (done todo : list value) : M unit :=
  match todo with
  | [] => mret tt
  | version :: rest =>
      to_email ← lift (to ← getitem_str version "to";
                       first ← getitem_0 to;
                       getitem_str first "email");
      mm ← gets merge_metadata;
      override ← lift (dict_get mm to_email);
      match override with
      | Some recipient_override =>
          md ← gets metadata;
          let recipient_metadata := recipient_override ∪ md in
          s ← lift (serialize_json (VDict recipient_metadata));
          version' ← lift (setitem_str version "headers"
                             (VDict {[ "X-Mailin-custom" := VStr s ]}));
          data_set "messageVersions" (VList (done ++ version' :: rest));;
          recipient_headers (done ++ [version']) rest
      | None => recipient_headers (done ++ [version]) rest
      end
  end.

(** The body of [if self.is_batch():]: burst [data["to"]] into
    [data["messageVersions"]], then merge the metadata of each recipient. *)
Definition burst_recipients : M unit :=
  to_list ← data_pop "to" (VList []);
  md ← gets merge_data;
  versions ← lift (tos ← py_iter to_list; mapM (message_version md) tos);
  data_set "messageVersions" (VList versions);;
  mm ← gets merge_metadata;
  if bool_decide (dom mm = ∅) then mret tt
  else
    message_versions ← data_get "messageVersions";
    todo ← lift (py_iter message_versions);
    recipient_headers [] todo.

Definition serialize_data : M string :=
  batch ← gets is_batch;
  (if (batch : bool) then burst_recipients else mret tt);;
  headers ← data_get "headers";
  (if truthy headers then mret tt else data_del "headers");;
  d ← gets data;
  lift (serialize_json (VDict d)).

(** The loop over [zip(payload.to_recipients, message_ids)]: each turn builds
    the status of its pair, then stores it under the address. *)
Fixpoint store_statuses (recipient_status : gmap string AnymailRecipientStatus)
    (pairs : list (EmailAddress * value))
    : outcome (gmap string AnymailRecipientStatus) :=
  match pairs with
  | [] => Returns recipient_status
  | (to, message_id) :: rest =>
      status ← AnymailRecipientStatus_init message_id "queued";
      store_statuses (<[addr_spec to := status]> recipient_status) rest
  end.

Definition parse_recipient_status (self : EmailBackend) (response : Response)
    (payload : Payload) (message : Message)
    : outcome (gmap string AnymailRecipientStatus) :=
  ids ←
    (if String.eqb (content response) ""
     then (Returns (VNone, VList []) : outcome (value * value))
     else
       parsed_response ←
         deserialize_json_response self response payload message;
       try_except
         (message_id ← getitem_str parsed_response "messageId";
          mret (message_id, VList []))
         KeyError_or_TypeError
         (fun _ =>
            try_except
              (message_ids ← getitem_str parsed_response "messageIds";
               mret (VNone, message_ids))
              KeyError_or_TypeError
              (fun _ => Raises (AnymailRequestsAPIError
                                  "Invalid SendinBlue API response format"
                                  message payload response self))));
  status ← AnymailRecipientStatus_init ids.1 "queued";
  let recipient_status : gmap string AnymailRecipientStatus :=
    foldl (fun m recipient => <[addr_spec recipient := status]> m) ∅
      (all_recipients payload) in
  if truthy ids.2 then
    message_ids ← py_iter ids.2;
    store_statuses recipient_status (zip (to_recipients payload) message_ids)
  else mret recipient_status.

End Backend.

(** ** The rest of the backend and of the payload *)

(** [str.endswith]. *)
Fixpoint endswith (s suffix : string) : bool :=
  if String.eqb s suffix then true
  else match s with
       | EmptyString => false
       | String _ r => endswith r suffix
       end.

Definition default_api_url : string := "https://api.brevo.com/v3/".

Section BackendInit.

(** [get_anymail_setting(name, esp_name=..., kwargs=..., default=...)], the
    framework's: it is given the name of the setting and the default, if
    the call passes one. *)
Variable get_anymail_setting : string -> option string -> outcome string.

(** [EmailBackend.__init__]; [ignore_unsupported] is the setting the base
    class reads. *)
Definition EmailBackend_init (ignore_unsupported : bool)
    : outcome EmailBackend :=
  api_key ← get_anymail_setting "api_key" None;
  api_url ← get_anymail_setting "api_url" (Some default_api_url);
  let api_url :=
    if endswith api_url "/" then api_url else api_url +:+ "/" in
  mret {| api_key := api_key; api_url := api_url;
          ignore_unsupported_features := ignore_unsupported |}.

End BackendInit.

Definition get_api_endpoint : string := "smtp/email".

(** The HTTP headers [SendinBluePayload.__init__] hands to the base
    constructor: those of the caller, if any, with the two it sets. *)
Definition payload_http_headers (kwargs_headers : option (gmap string string))
    (b : EmailBackend) : gmap string string :=
  let http_headers := default ∅ kwargs_headers in
  let http_headers := <["api-key" := api_key b]> http_headers in
  <["Content-Type" := "application/json"]> http_headers.

(** [d[k] = x] on the items of a dictionary, kept in insertion order: a key
    that is there keeps its place. *)
Fixpoint items_set (k : string) (x : value) (items : list (string * value))
    : list (string * value) :=
  match items with
  | [] => [(k, x)]
  | (k', x') :: rest =>
      if String.eqb k k' then (k, x) :: rest
      else (k', x') :: items_set k x rest
  end.

(** [target.update(items)]: a dictionary takes the items one by one, and a
    value that is no mapping has no [update]. *)
Definition headers_update (target : value) (items : list (string * value))
    : outcome value :=
  match target with
  | VHeaders h =>
      Returns (VHeaders (foldl (fun h kx => <[lower kx.1 := (kx.1, kx.2)]> h)
                           h items))
  | VDict d => Returns (VDict (foldl (fun d kx => <[kx.1 := kx.2]> d) d items))
  | _ => Raises AttributeError
  end.

Section ExtraHeaders.

(** [isinstance(v, BASIC_NUMERIC_TYPES)], a constant of the framework's
    utilities, and the builtin [str]. *)
Variable is_basic_numeric : value -> bool.
Variable py_str : value -> string.

Definition stringify (v : value) : value :=
  if is_basic_numeric v then VStr (py_str v) else v.

(** The dictionary comprehension over [headers.items()], as items. *)
Definition stringified_items (headers : list (string * value))
    : list (string * value) :=
  foldl (fun d kv => items_set kv.1 (stringify kv.2) d) [] headers.

(** [headers] are the items of the mapping passed in, in its order. *)
Definition set_extra_headers (headers : list (string * value)) : M unit :=
  target ← data_get "headers";
  target' ← lift (headers_update target (stringified_items headers));
  data_set "headers" target'.

End ExtraHeaders.

(** * Vocabulary of the statements *)

(** ** Sample helpers, for running the model *)

Definition dquote : string := String (ascii_of_nat 34) EmptyString.

(** A rendering in the manner of [json.dumps], with the members of an object
    in key order and strings written as they are. *)
Fixpoint sample_dumps (v : value) : option string :=
  match v with
  | VNone => Some "null"
  | VBool b => Some (if b then "true" else "false")
  | VInt z => Some (pretty z)
  | VStr s => Some (dquote +:+ s +:+ dquote)
  | VList l =>
      items ← mapM sample_dumps l;
      Some ("[" +:+ String.concat ", " items +:+ "]")
  | VDict d =>
      members ← map_fold
        (fun k x acc =>
           rest ← acc; sx ← sample_dumps x;
           Some ((dquote +:+ k +:+ dquote +:+ ": " +:+ sx) :: rest))
        (Some []) d;
      Some ("{" +:+ String.concat ", " members +:+ "}")
  | VHeaders h =>
      members ← map_fold
        (fun _ kx acc =>
           rest ← acc; sx ← sample_dumps kx.2;
           Some ((dquote +:+ kx.1 +:+ dquote +:+ ": " +:+ sx) :: rest))
        (Some []) h;
      Some ("{" +:+ String.concat ", " members +:+ "}")
  | VDatetime _ | VDate _ => None
  end.

Definition sample_serialize_json (v : value) : outcome string :=
  match sample_dumps v with
  | Some s => Returns s
  | None => Raises AnymailSerializationError
  end.

(** A decoder that knows the bodies of [table], and rejects any other body as
    the framework rejects what is no JSON. *)
Definition sample_deserialize (table : list (string * value))
    (self : EmailBackend) (response : Response) (payload : Payload)
    (message : Message) : outcome value :=
  match list_find (fun entry => entry.1 = content response) table with
  | Some (_, (_, parsed)) => Returns parsed
  | None => Raises (AnymailRequestsAPIError
                      "Invalid JSON in SendinBlue API response"
                      message payload response self)
  end.

(** A method called once for each element of a list, in order. *)
Fixpoint call_each {A} (method : A -> M unit) (args : list A) : M unit :=
  match args with
  | [] => mret tt
  | x :: rest => method x;; call_each method rest
  end.

(** The entry [add_attachment] builds for an attachment. *)
Definition attachment_entry (attachment : Attachment) : value :=
  VDict {[ "name" := VStr (default "" (name attachment));
           "content" := VStr (b64content attachment) ]}.

(** The list [data["attachment"]] stands for: no key reads as no entry. *)
Definition attachments (p : Payload) : option (list value) :=
  match data p !! "attachment" with
  | None => Some []
  | Some (VList l) => Some l
  | Some _ => None
  end.

Definition signal_inline (attachment : Attachment) (p : Payload) : Payload :=
  if inline attachment
  then with_signalled (signalled p ++ ["inline attachments"]) p
  else p.

Definition with_microsecond (us : N) (dt : datetime) : datetime :=
  {| year := year dt; month := month dt; day := day dt; hour := hour dt;
     minute := minute dt; second := second dt; microsecond := us;
     utcoffset := utcoffset dt |}.



(** *** A reader of ISO-8601 at millisecond precision

    The extended format [YYYY-MM-DDTHH:MM:SS.mmm], followed by nothing or by
    an offset [+HH:MM] or [-HH:MM]. *)

Definition digit (c : ascii) : option N :=
  let n := N_of_ascii c in
  if ((48 <=? n) && (n <=? 57))%N then Some (n - 48)%N else None.

Fixpoint read_digits (acc : N) (s : string) : option N :=
  match s with
  | EmptyString => Some acc
  | String c r => d ← digit c; read_digits (10 * acc + d)%N r
  end.

(** The first [w] characters of [s] and what follows them. *)
Fixpoint split_at (w : nat) (s : string) : option (string * string) :=
  match w with
  | O => Some (EmptyString, s)
  | S w' =>
      match s with
      | EmptyString => None
      | String c r =>
          match split_at w' r with
          | Some (field, rest) => Some (String c field, rest)
          | None => None
          end
      end
  end.

(** A number written on exactly [w] digits at the head of [s]. *)
Definition read_field (w : nat) (s : string) : option (N * string) :=
  match split_at w s with
  | Some (field, rest) =>
      match read_digits 0 field with
      | Some n => Some (n, rest)
      | None => None
      end
  | None => None
  end.

Definition read_char (c : ascii) (s : string) : option string :=
  match s with
  | String c' rest => if Ascii.eqb c c' then Some rest else None
  | EmptyString => None
  end.

(** The offset in minutes; [None] inside [Some] for a naive value. *)
Definition read_offset (s : string) : option (option Z) :=
  match s with
  | EmptyString => Some None
  | String sign s =>
      '(hours, s) ← read_field 2 s;
      s ← read_char ":" s;
      '(minutes, s) ← read_field 2 s;
      let m := Z.of_N (60 * hours + minutes) in
      if negb (String.eqb s "") then None
      else if Ascii.eqb sign "+" then Some (Some m)
      else if Ascii.eqb sign "-" then Some (Some (- m)%Z)
      else None
  end.

Definition read_isoformat_milliseconds (s : string) : option datetime :=
  '(year, s) ← read_field 4 s;
  s ← read_char "-" s;
  '(month, s) ← read_field 2 s;
  s ← read_char "-" s;
  '(day, s) ← read_field 2 s;
  s ← read_char "T" s;
  '(hour, s) ← read_field 2 s;
  s ← read_char ":" s;
  '(minute, s) ← read_field 2 s;
  s ← read_char ":" s;
  '(second, s) ← read_field 2 s;
  s ← read_char "." s;
  '(milliseconds, s) ← read_field 3 s;
  offset ← read_offset s;
  Some {| year := year; month := month; day := day; hour := hour;
          minute := minute; second := second;
          microsecond := (1000 * milliseconds)%N; utcoffset := offset |}.

(** A name written in ASCII. *)
Fixpoint is_ascii (s : string) : bool :=
  match s with
  | EmptyString => true
  | String c r => (nat_of_ascii c <? 128)%nat && is_ascii r
  end.

(** The status record of a recipient whose message the vendor has queued. *)
Definition queued (message_id : value) : AnymailRecipientStatus :=
  {| message_id := message_id; status := "queued" |}.

(** A comprehension or loop that stores [item x] under [key x] for each [x]
    in turn. *)
Definition store_each {A V} (key : A -> string) (item : A -> V)
    (m : gmap string V) (l : list A) : gmap string V :=
  foldl (fun m x => <[key x := item x]> m) m l.

(** Whether a decoded body is an object with member [k]. *)
Definition has_key (v : value) (k : string) : bool :=
  match v with
  | VDict d => bool_decide (k ∈ dom d)
  | VHeaders h => bool_decide (lower k ∈ dom h)
  | _ => false
  end.

(** The dictionary that gives every recipient of the payload one status. *)
Definition all_with (payload : Payload) (status : AnymailRecipientStatus)
    : gmap string AnymailRecipientStatus :=
  store_each addr_spec (fun _ => status) ∅ (all_recipients payload).

(** The status a returned mapping holds for an address. *)
Definition status_of (result : outcome (gmap string AnymailRecipientStatus))
    (address : string) : outcome (option AnymailRecipientStatus) :=
  recipient_status ← result; mret (recipient_status !! address).

(** The version the comprehension builds for a recipient with address [e]. *)
Definition base_version (merge_data : gmap string value) (to : value)
    (e : string) : gmap string value :=
  {[ "to" := VList [to]; "params" := default VNone (merge_data !! e) ]}.

(** The headers stored in a version whose recipient has an override. *)
Definition custom_header (s : string) : value :=
  VDict {[ "X-Mailin-custom" := VStr s ]}.

Definition has_email (to : value) (e : string) : Prop :=
  getitem_str to "email" = Returns (VStr e).

Section Versions.

(** The serializer and the late-bound maps of the payload being serialized. *)
Variable serialize_json : value -> outcome string.
Variables (md : gmap string value) (mm : gmap string (gmap string value))
  (meta : gmap string value).

Definition base_versions (tos : list value) (emails : list string)
    : list value :=
  zip_with (fun to e => VDict (base_version md to e)) tos emails.

(** A version the loop may have visited or not: as built, or with the
    headers of its recipient's override. *)
Definition touched (to : value) (e : string) (version : value) : Prop :=
  version = VDict (base_version md to e)
  ∨ ∃ (override : gmap string value) (s : string),
      mm !! e = Some override
      ∧ serialize_json (VDict (override ∪ meta)) = Returns s
      ∧ version
        = VDict (<["headers" := custom_header s]> (base_version md to e)).

(** A version after the loop has visited it. *)
Definition finished (to : value) (e : string) (version : value) : Prop :=
  match mm !! e with
  | Some override =>
      ∃ s : string,
        serialize_json (VDict (override ∪ meta)) = Returns s
        ∧ version
          = VDict (<["headers" := custom_header s]> (base_version md to e))
  | None => version = VDict (base_version md to e)
  end.

(** Every override that applies to one of [emails] has a JSON form. *)
Definition overrides_serialize (emails : list string) : Prop :=
  ∀ (e : string) (override : gmap string value),
    e ∈ emails ->
    mm !! e = Some override ->
    ∃ s : string, serialize_json (VDict (override ∪ meta)) = Returns s.

End Versions.

(** The entry at a position of [data["messageVersions"]]. *)
Definition version_entry (p : Payload) (i : nat) : option value :=
  match data p !! "messageVersions" with
  | Some (VList versions) => versions !! i
  | _ => None
  end.

(** ** The claims that do not hold as worded *)

(** The claim C3 as the specification words it: of two calls with non-empty
    bodies, the second signals once and the first body stays. *)
Definition html_first_call_wins : Prop :=
  ∀ (p p1 p2 : Payload) (first second : string) (o : outcome unit),
    first ≠ "" -> second ≠ "" ->
    set_html_body first p = (Returns tt, p1) ->
    set_html_body second p1 = (o, p2) ->
    signalled p2 = signalled p1 ++ ["multiple html parts"]
    ∧ data p2 !! "htmlContent" = Some (VStr first).

(** The claim C10 as the specification words it: the entry of an attachment
    is appended whether the attachment is inline or not. *)
Definition inline_attachment_kept : Prop :=
  ∀ (p p' : Payload) (attachment : Attachment) (o : outcome unit),
    data p !! "attachment" = None ->
    add_attachment attachment p = (o, p') ->
    data p' !! "attachment" = Some (VList [attachment_entry attachment]).

(** The claim C2 as the specification words it: the i-th to-address gets the
    i-th id, and a recipient that is not one of the zipped to-recipients
    keeps the default status. *)
Definition batch_ids_positional
    (deserialize_json_response :
       EmailBackend -> Response -> Payload -> Message -> outcome value)
    : Prop :=
  ∀ (self : EmailBackend) (response : Response) (payload : Payload)
    (message : Message) (parsed : value) (ids : list value),
    content response ≠ "" ->
    deserialize_json_response self response payload message = Returns parsed ->
    has_key parsed "messageId" = false ->
    getitem_str parsed "messageIds" = Returns (VList ids) ->
    ∃ recipient_status : gmap string AnymailRecipientStatus,
      parse_recipient_status deserialize_json_response self response payload
        message = Returns recipient_status
      ∧ (∀ (i : nat) (to : EmailAddress) (id : value),
           to_recipients payload !! i = Some to ->
           ids !! i = Some id ->
           recipient_status !! addr_spec to
           = Some {| message_id := id; status := "queued" |})
      ∧ (∀ recipient : EmailAddress,
           recipient ∈ all_recipients payload ->
           recipient ∉ take (length ids) (to_recipients payload) ->
           recipient_status !! addr_spec recipient
           = Some {| message_id := VNone; status := "queued" |}).

(** The claim C9 as the specification words it: whatever the [messageId]
    of a body that holds both keys, every recipient receives it. *)
Definition both_keys_any_id
    (deserialize_json_response :
       EmailBackend -> Response -> Payload -> Message -> outcome value)
    : Prop :=
  ∀ (self : EmailBackend) (response : Response) (payload : Payload)
    (message : Message) (parsed id ids : value),
    content response ≠ "" ->
    deserialize_json_response self response payload message = Returns parsed ->
    getitem_str parsed "messageId" = Returns id ->
    getitem_str parsed "messageIds" = Returns ids ->
    ∃ recipient_status : gmap string AnymailRecipientStatus,
      parse_recipient_status deserialize_json_response self response payload
        message = Returns recipient_status
      ∧ ∀ recipient : EmailAddress,
          recipient ∈ all_recipients payload ->
          recipient_status !! addr_spec recipient
          = Some {| message_id := id; status := "queued" |}.


(** ** Sample data *)

Definition alice : EmailAddress :=
  {| display_name := "Alice"; addr_spec := "alice@example.com" |}.
Definition bob : EmailAddress :=
  {| display_name := ""; addr_spec := "bob@example.com" |}.
Definition carol : EmailAddress :=
  {| display_name := "Carol"; addr_spec := "carol@example.com" |}.

Definition raising_backend : EmailBackend :=
  {| api_key := "key"; api_url := "https://api.brevo.com/v3/";
     ignore_unsupported_features := false |}.
Definition ignoring_backend : EmailBackend :=
  {| api_key := "key"; api_url := "https://api.brevo.com/v3/";
     ignore_unsupported_features := true |}.

(** A quarter past noon and some, UTC, and the day of it. *)
Definition sample_time : datetime :=
  {| year := 2022; month := 10; day := 11; hour := 12; minute := 13;
     second := 14; microsecond := 567891; utcoffset := Some 0%Z |}.
Definition sample_day : date :=
  {| date_year := 2022; date_month := 10; date_day := 11 |}.

Definition logo : Attachment :=
  {| name := Some "logo.png"; b64content := "iVBORw0KGgo="; inline := true |}.
Definition report : Attachment :=
  {| name := None; b64content := "JVBERi0xLjQ="; inline := false |}.

Definition sample_body (parsed : value) : string :=
  default "" (sample_dumps parsed).

Definition sample_table (bodies : list value) : list (string * value) :=
  (fun parsed => (sample_body parsed, parsed)) <$> bodies.

Definition single_id_body : value :=
  VDict {[ "messageId" := VStr "<202211.1@smtp-relay.mailin.fr>" ]}.
Definition batch_ids_body : value :=
  VDict {[ "messageIds" := VList [VStr "<id-1@relay>"; VStr "<id-2@relay>"] ]}.
Definition both_keys_body : value :=
  VDict {[ "messageId" := VStr "<202211.1@smtp-relay.mailin.fr>";
           "messageIds" := VList [VStr "<id-1@relay>"; VStr "<id-2@relay>"] ]}.
Definition foo_bar_body : value :=
  VDict {[ "foo" := VStr "bar" ]}.

(** Bodies with an id that is no scalar. *)
Definition list_id_body : value :=
  VDict {[ "messageId" := VList [VStr "<id-0@relay>"];
           "messageIds" := VList [VStr "<id-1@relay>"; VStr "<id-2@relay>"] ]}.
Definition nested_ids_body : value :=
  VDict {[ "messageIds" := VList [VStr "<id-1@relay>";
                                  VList [VStr "<id-2@relay>"]] ]}.

Definition sample_decoder :=
  sample_deserialize
    (sample_table
       [single_id_body; batch_ids_body; both_keys_body; foo_bar_body]).

Definition response_of (parsed : value) : Response :=
  {| content := sample_body parsed |}.

Definition sample_message : Message :=
  EmailMessage {[ "subject" := VStr "Hello" ]}.

(** To alice and bob, cc carol. *)
Definition three_recipients : Payload :=
  ((set_recipients "to" [alice; bob];; set_recipients "cc" [carol])
     (init_payload raising_backend true)).2.

(** To alice twice. *)
Definition alice_twice : Payload :=
  (set_recipients "to" [alice; alice] (init_payload raising_backend true)).2.

(** To alice and bob; global metadata, merge data and a metadata override for
    alice only. *)
Definition batch_payload : Payload :=
  ((set_recipients "to" [alice; bob];;
    set_metadata sample_serialize_json
      {[ "order" := VInt 1; "tag" := VStr "x" ]};;
    set_merge_data {[ "alice@example.com" := VDict {[ "name" := VStr "X" ]} ]};;
    set_merge_metadata {[ "alice@example.com" := {[ "order" := VInt 2 ]} ]})
     (init_payload raising_backend true)).2.

Definition serialized_batch : outcome string * Payload :=
  serialize_data sample_serialize_json batch_payload.

(** ** Vocabulary of the further properties *)

(** What [set_recipients] keeps true: the recipients in [to_recipients] are
    among [all_recipients], and [data["to"]] lists their objects in order. *)
Definition recipients_consistent (p : Payload) : Prop :=
  (∀ r, r ∈ to_recipients p -> r ∈ all_recipients p)
  ∧ default (VList []) (data p !! "to")
    = VList (email_object <$> to_recipients p).

(** Two payloads that differ at most in the entries of [data] under [keys]. *)
Definition same_but (keys : list string) (p p' : Payload) : Prop :=
  backend p' = backend p
  ∧ is_batch p' = is_batch p
  ∧ all_recipients p' = all_recipients p
  ∧ to_recipients p' = to_recipients p
  ∧ merge_data p' = merge_data p
  ∧ metadata p' = metadata p
  ∧ merge_metadata p' = merge_metadata p
  ∧ signalled p' = signalled p
  ∧ ∀ k, k ∉ keys -> data p' !! k = data p !! k.

(** A method that changes the payload at most in [data], under [keys]. *)
Definition touches_only {A} (keys : list string) (c : M A) : Prop :=
  ∀ (p p' : Payload) (o : outcome A), c p = (o, p') -> same_but keys p p'.

(** The last body of a list that is not empty. *)
Definition last_nonempty (bodies : list string) : option string :=
  last (filter (fun b => b ≠ "") bodies).

(** A sample [isinstance(v, (int, float))] and [str]. *)
Definition sample_is_numeric (v : value) : bool :=
  match v with
  | VInt _ | VBool _ => true
  | _ => false
  end.

Definition sample_str (v : value) : string :=
  match v with
  | VInt z => pretty z
  | VBool b => if b then "True" else "False"
  | VStr s => s
  | _ => "None"
  end.

(** The statuses of alice, bob (to) and carol (cc) after a response with two
    ids. *)
Definition two_ids_statuses : gmap string AnymailRecipientStatus :=
  {[ "alice@example.com" := queued (VStr "<id-1@relay>");
     "bob@example.com" := queued (VStr "<id-2@relay>");
     "carol@example.com" := queued VNone ]}.

Definition null_ids_body : value := VDict {[ "messageIds" := VNone ]}.
Definition number_ids_body : value := VDict {[ "messageIds" := VInt 5 ]}.

Definition edge_decoder :=
  sample_deserialize
    (sample_table [single_id_body; batch_ids_body; null_ids_body;
                   number_ids_body]).

Definition odd_decoder :=
  sample_deserialize (sample_table [list_id_body; nested_ids_body]).

Definition sample_headers : list (string * value) :=
  [("X-Priority", VInt 1); ("X-Campaign", VStr "spring")].

(** A batch payload whose second recipient, written through [esp_extra], has
    no address. *)
Definition nameless_recipient : Payload :=
  (set_esp_extra
     {[ "to" := VList [email_object alice; VDict {[ "name" := VStr "Bob" ]}] ]}
     (init_payload raising_backend true)).2.

(** Settings in which only the listed names are configured: a name that is
    not takes the default of the call, and the call raises without one. *)
Definition sample_settings (configured : list (string * string))
    (setting : string) (default_value : option string) : outcome string :=
  match list_find (fun entry => entry.1 = setting) configured with
  | Some (_, (_, configured_value)) => Returns configured_value
  | None =>
      match default_value with
      | Some d => Returns d
      | None => Raises AttributeError
      end
  end.

(** * Properties *)

Example isoformat_utc :
  isoformat_milliseconds
    {| year := 2022%N; month := 10%N; day := 11%N; hour := 12%N;
       minute := 13%N; second := 14%N; microsecond := 567891%N;
       utcoffset := Some 0%Z |}
  = "2022-10-11T12:13:14.567+00:00".
Proof. vm_compute. reflexivity. Qed.

Example isoformat_west :
  isoformat_milliseconds
    {| year := 2016%N; month := 3%N; day := 4%N; hour := 5%N;
       minute := 6%N; second := 7%N; microsecond := 8000%N;
       utcoffset := Some (-480)%Z |}
  = "2016-03-04T05:06:07.008-08:00".
Proof. vm_compute. reflexivity. Qed.

(** ** Running a method *)

Lemma run_bind {A B} (c : M A) (f : A -> M B) (p : Payload) :
  (c ≫= f) p =
  match c p with
  | (Returns a, p') => f a p'
  | (Raises e, p') => (Raises e, p')
  end.
Proof. reflexivity. Qed.

Lemma run_bind_returns {A B} (c : M A) (f : A -> M B) (p p' : Payload) (a : A) :
  c p = (Returns a, p') -> (c ≫= f) p = f a p'.
Proof. intros H. rewrite run_bind, H. reflexivity. Qed.

Lemma run_bind_raises {A B} (c : M A) (f : A -> M B) (p p' : Payload)
    (e : exn) :
  c p = (Raises e, p') -> (c ≫= f) p = (Raises e, p').
Proof. intros H. rewrite run_bind, H. reflexivity. Qed.

Lemma run_data_set (k : string) (x : value) (p : Payload) :
  data_set k x p = (Returns tt, with_data (insert k x) p).
Proof. reflexivity. Qed.

Ltac run_method :=
  unfold data_set, data_get, data_del, data_pop, gets, modify, raise, lift;
  repeat first
    [ rewrite run_bind
    | progress unfold mret, M_ret
    | progress simpl ].

(** ** Recipients *)

Lemma set_recipients_empty (recipient_type : string) (p : Payload) :
  recipient_type ∈ ["to"; "cc"; "bcc"] ->
  set_recipients recipient_type [] p = (Returns tt, p).
Proof.
  intros Hin. unfold set_recipients.
  rewrite bool_decide_eq_true_2 by exact Hin. reflexivity.
Qed.

Lemma set_recipients_nonempty (recipient_type : string)
    (emails : list EmailAddress) (p : Payload) :
  recipient_type ∈ ["to"; "cc"; "bcc"] ->
  emails ≠ [] ->
  set_recipients recipient_type emails p =
  (Returns tt,
   (if String.eqb recipient_type "to" then with_to_recipients emails else id)
     (with_all_recipients (all_recipients p ++ emails)
        (with_data
           (insert recipient_type (VList (email_object <$> emails))) p))).
Proof.
  intros Hin Hne. unfold set_recipients.
  rewrite bool_decide_eq_true_2 by exact Hin.
  destruct emails as [|e emails]; [congruence|].
  run_method. destruct (String.eqb recipient_type "to"); reflexivity.
Qed.

Lemma set_recipients_other_type (recipient_type : string)
    (emails : list EmailAddress) (p : Payload) :
  recipient_type ∉ ["to"; "cc"; "bcc"] ->
  set_recipients recipient_type emails p = (Raises AssertionError, p).
Proof.
  intros Hin. unfold set_recipients.
  rewrite bool_decide_eq_false_2 by exact Hin. reflexivity.
Qed.

(** What one call does to the recipient lists and to [data], empty list or
    not. *)
Lemma set_recipients_spec (recipient_type : string)
    (emails : list EmailAddress) (p : Payload) :
  recipient_type ∈ ["to"; "cc"; "bcc"] ->
  ∃ p', set_recipients recipient_type emails p = (Returns tt, p')
    ∧ all_recipients p' = all_recipients p ++ emails
    ∧ to_recipients p' =
        (if bool_decide (recipient_type = "to" ∧ emails ≠ [])
         then emails else to_recipients p)
    ∧ data p' =
        (if bool_decide (emails = []) then data p
         else <[recipient_type := VList (email_object <$> emails)]> (data p))
    ∧ signalled p' = signalled p.
Proof.
  intros Hin. destruct emails as [|e emails].
  - exists p. rewrite set_recipients_empty by exact Hin.
    rewrite app_nil_r.
    rewrite bool_decide_eq_false_2 by (intros [_ H]; congruence).
    done.
  - eexists. rewrite set_recipients_nonempty by done.
    split; [reflexivity|].
    destruct (String.eqb_spec recipient_type "to") as [->|Hne]; simpl.
    + done.
    + rewrite bool_decide_eq_false_2 by (intros [H _]; congruence). done.
Qed.

(** C7: after [set_recipients] is called for to, cc and bcc in that order, on
    a payload that holds no recipients yet and with any lists (empty ones
    too), [all_recipients] is the to list followed by the cc list followed by
    the bcc list, [to_recipients] is the to list, and a call with an empty
    list returns the payload as it was: no key of [data] is added and no
    recipient is accumulated. *)
Theorem set_recipients_to_cc_bcc (p : Payload) (to cc bcc : list EmailAddress) :
  all_recipients p = [] ->
  to_recipients p = [] ->
  ∃ p',
    (set_recipients "to" to;; set_recipients "cc" cc;;
     set_recipients "bcc" bcc) p = (Returns tt, p')
    ∧ all_recipients p' = to ++ cc ++ bcc
    ∧ to_recipients p' = to
    ∧ ∀ (recipient_type : string) (q : Payload),
        recipient_type ∈ ["to"; "cc"; "bcc"] ->
        set_recipients recipient_type [] q = (Returns tt, q).
Proof.
  intros Hall Hto.
  destruct (set_recipients_spec "to" to p) as (p1 & R1 & A1 & T1 & _);
    [set_solver|].
  destruct (set_recipients_spec "cc" cc p1) as (p2 & R2 & A2 & T2 & _);
    [set_solver|].
  destruct (set_recipients_spec "bcc" bcc p2) as (p3 & R3 & A3 & T3 & _);
    [set_solver|].
  exists p3. split; [|split; [|split]].
  - rewrite (run_bind_returns _ _ _ _ _ R1), (run_bind_returns _ _ _ _ _ R2).
    exact R3.
  - rewrite A3, A2, A1, Hall. simpl. by rewrite app_assoc.
  - rewrite T3, T2, T1, Hto.
    rewrite (bool_decide_eq_false_2 ("bcc" = "to" ∧ _))
      by (intros [? _]; discriminate).
    rewrite (bool_decide_eq_false_2 ("cc" = "to" ∧ _))
      by (intros [? _]; discriminate).
    destruct to as [|t to'].
    + rewrite bool_decide_eq_false_2 by (intros [_ ?]; congruence). reflexivity.
    + rewrite bool_decide_eq_true_2 by (split; congruence). reflexivity.
  - intros recipient_type q Hin. by apply set_recipients_empty.
Qed.

Lemma set_recipients_to_cc_bcc_witness :
  ∃ p',
    (set_recipients "to" [alice; bob];; set_recipients "cc" [];;
     set_recipients "bcc" [carol]) (init_payload raising_backend false)
      = (Returns tt, p')
    ∧ all_recipients p' = [alice; bob] ++ [] ++ [carol]
    ∧ to_recipients p' = [alice; bob]
    ∧ ∀ (recipient_type : string) (q : Payload),
        recipient_type ∈ ["to"; "cc"; "bcc"] ->
        set_recipients recipient_type [] q = (Returns tt, q).
Proof.
  apply (set_recipients_to_cc_bcc (init_payload raising_backend false));
    reflexivity.
Defined.

(** ** The HTML body *)

Lemma unsupported_feature_run (feature : string) (p : Payload) :
  unsupported_feature feature p =
  (if ignore_unsupported_features (backend p) then Returns tt
   else Raises (AnymailUnsupportedFeature feature),
   with_signalled (signalled p ++ [feature]) p).
Proof.
  unfold unsupported_feature. run_method.
  destruct (ignore_unsupported_features (backend p)); reflexivity.
Qed.

Lemma set_html_body_fresh (body : string) (p : Payload) :
  body ≠ "" ->
  data p !! "htmlContent" = None ->
  set_html_body body p
  = (Returns tt, with_data (insert "htmlContent" (VStr body)) p).
Proof.
  intros Hbody Hnone. unfold set_html_body.
  destruct (String.eqb_spec body "") as [->|_]; [done|].
  run_method.
  rewrite bool_decide_eq_false_2 by (by rewrite not_elem_of_dom).
  reflexivity.
Qed.

Lemma set_html_body_again (body : string) (p : Payload) :
  body ≠ "" ->
  is_Some (data p !! "htmlContent") ->
  set_html_body body p
  = if ignore_unsupported_features (backend p)
    then (Returns tt,
          with_data (insert "htmlContent" (VStr body))
            (with_signalled (signalled p ++ ["multiple html parts"]) p))
    else (Raises (AnymailUnsupportedFeature "multiple html parts"),
          with_signalled (signalled p ++ ["multiple html parts"]) p).
Proof.
  intros Hbody Hsome. unfold set_html_body.
  destruct (String.eqb_spec body "") as [->|_]; [done|].
  run_method.
  rewrite bool_decide_eq_true_2 by (by rewrite elem_of_dom).
  rewrite unsupported_feature_run.
  destruct (ignore_unsupported_features (backend p)); reflexivity.
Qed.

Lemma set_html_body_returns (body : string) (p p' : Payload) :
  body ≠ "" ->
  set_html_body body p = (Returns tt, p') ->
  data p' !! "htmlContent" = Some (VStr body) ∧ backend p' = backend p.
Proof.
  intros Hbody Hrun.
  destruct (data p !! "htmlContent") as [old|] eqn:Hold.
  - rewrite set_html_body_again in Hrun by (rewrite ?Hold; eauto).
    destruct (ignore_unsupported_features (backend p)); [|discriminate].
    injection Hrun as <-. simpl. by rewrite lookup_insert_eq.
  - rewrite set_html_body_fresh in Hrun by done.
    injection Hrun as <-. simpl. by rewrite lookup_insert_eq.
Qed.

(** C3, refuted as worded: on a backend that ignores unsupported features the
    second call returns and stores the second body. *)
Lemma html_first_call_wins_counterexample : ¬ html_first_call_wins.
Proof.
  intros claim.
  destruct (claim (init_payload ignoring_backend false) _ _
              "<p>first</p>" "<p>second</p>" _
              ltac:(discriminate) ltac:(discriminate) eq_refl eq_refl)
    as [_ Hstays].
  vm_compute in Hstays. discriminate Hstays.
Qed.

(** C3, amended: of two calls of [set_html_body] with non-empty bodies, the
    first having returned, the second signals unsupported-feature exactly
    once; where the framework raises the signal the call raises and [data]
    is left as the first call made it, so [htmlContent] is still the first
    body; where the signal is ignored the call returns and [htmlContent] is
    the second body. *)
Theorem set_html_body_twice (p p1 : Payload) (first second : string) :
  first ≠ "" ->
  second ≠ "" ->
  set_html_body first p = (Returns tt, p1) ->
  data p1 !! "htmlContent" = Some (VStr first)
  ∧ ∃ (o : outcome unit) (p2 : Payload),
      set_html_body second p1 = (o, p2)
      ∧ signalled p2 = signalled p1 ++ ["multiple html parts"]
      ∧ if ignore_unsupported_features (backend p1)
        then o = Returns tt
             ∧ data p2 !! "htmlContent" = Some (VStr second)
        else o = Raises (AnymailUnsupportedFeature "multiple html parts")
             ∧ data p2 = data p1
             ∧ data p2 !! "htmlContent" = Some (VStr first).
Proof.
  intros Hfirst Hsecond Hrun.
  destruct (set_html_body_returns _ _ _ Hfirst Hrun) as [Hhtml _].
  split; [exact Hhtml|].
  rewrite set_html_body_again by (rewrite ?Hhtml; eauto).
  destruct (ignore_unsupported_features (backend p1)).
  - eexists _, _. split; [reflexivity|]. simpl.
    split; [reflexivity|]. split; [reflexivity|]. by rewrite lookup_insert_eq.
  - eexists _, _. split; [reflexivity|]. simpl.
    do 3 (split; [reflexivity|]). exact Hhtml.
Qed.

Lemma set_html_body_twice_witness :
  data (with_data (insert "htmlContent" (VStr "<p>first</p>"))
          (init_payload raising_backend false)) !! "htmlContent"
    = Some (VStr "<p>first</p>")
  ∧ ∃ (o : outcome unit) (p2 : Payload),
      set_html_body "<p>second</p>"
        (with_data (insert "htmlContent" (VStr "<p>first</p>"))
           (init_payload raising_backend false)) = (o, p2)
      ∧ signalled p2 = [] ++ ["multiple html parts"]
      ∧ o = Raises (AnymailUnsupportedFeature "multiple html parts")
      ∧ data p2 = data (with_data (insert "htmlContent" (VStr "<p>first</p>"))
                          (init_payload raising_backend false))
      ∧ data p2 !! "htmlContent" = Some (VStr "<p>first</p>").
Proof.
  apply (set_html_body_twice (init_payload raising_backend false)
           (with_data (insert "htmlContent" (VStr "<p>first</p>"))
              (init_payload raising_backend false))
           "<p>first</p>" "<p>second</p>").
  - discriminate.
  - discriminate.
  - vm_compute. reflexivity.
Defined.

(** ** Attachments *)

Lemma add_attachment_appends (attachment : Attachment) (p : Payload)
    (old : list value) :
  attachments p = Some old ->
  inline attachment = false ∨ ignore_unsupported_features (backend p) = true ->
  add_attachment attachment p
  = (Returns tt,
     with_data
       (insert "attachment" (VList (old ++ [attachment_entry attachment])))
       (signal_inline attachment p)).
Proof.
  intros Hold Hmode. unfold add_attachment, signal_inline, attachments in *.
  rewrite run_bind.
  destruct (inline attachment) eqn:Hinline.
  - destruct Hmode as [?|Hignore]; [done|].
    rewrite unsupported_feature_run, Hignore. run_method.
    destruct (data p !! "attachment") as [[]|]; by simplify_eq.
  - run_method.
    destruct (data p !! "attachment") as [[]|]; by simplify_eq.
Qed.

Lemma add_attachment_inline_raises (attachment : Attachment) (p : Payload) :
  inline attachment = true ->
  ignore_unsupported_features (backend p) = false ->
  add_attachment attachment p
  = (Raises (AnymailUnsupportedFeature "inline attachments"),
     with_signalled (signalled p ++ ["inline attachments"]) p).
Proof.
  intros Hinline Hraise. unfold add_attachment.
  rewrite run_bind, Hinline, unsupported_feature_run, Hraise. reflexivity.
Qed.

Lemma call_each_add_attachment (atts : list Attachment) :
  ∀ (p : Payload) (old : list value),
    attachments p = Some old ->
    ignore_unsupported_features (backend p) = true
      ∨ Forall (fun a => inline a = false) atts ->
    ∃ p',
      call_each add_attachment atts p = (Returns tt, p')
      ∧ data p' =
          (if atts is [] then data p
           else <["attachment" := VList (old ++ (attachment_entry <$> atts))]>
                  (data p))
      ∧ backend p' = backend p
      ∧ signalled p' =
          signalled p ++ (const "inline attachments" <$> filter inline atts).
Proof.
  induction atts as [|a atts IH]; intros p old Hold Hmode.
  - exists p. simpl. by rewrite app_nil_r.
  - simpl. rewrite run_bind.
    rewrite (add_attachment_appends a p old Hold).
    2:{ destruct Hmode as [?|Hall]; [by right|left].
        by apply Forall_cons_1 in Hall as [? _]. }
    set (p1 := with_data _ _).
    destruct (IH p1 (old ++ [attachment_entry a]))
      as (p' & Hrun & Hdata & Hb & Hs).
    { unfold attachments, p1. simpl. by rewrite lookup_insert_eq. }
    { unfold p1, signal_inline.
      destruct Hmode as [?|Hall].
      - left. by destruct (inline a).
      - right. by apply Forall_cons_1 in Hall as [_ ?]. }
    exists p'. split; [exact Hrun|]. split; [|split].
    + rewrite Hdata. unfold p1, signal_inline.
      destruct atts; destruct (inline a); simpl;
        rewrite <- ?app_assoc; simpl; by rewrite ?insert_insert_eq.
    + rewrite Hb. unfold p1, signal_inline. by destruct (inline a).
    + rewrite Hs. unfold p1, signal_inline.
      rewrite filter_cons. destruct (inline a); simpl.
      * by rewrite <- app_assoc.
      * reflexivity.
Qed.

(** C10, refuted as worded: where the framework raises the signal, the call
    for an inline attachment raises before the entry is stored. *)
Lemma inline_attachment_kept_counterexample : ¬ inline_attachment_kept.
Proof.
  intros claim.
  pose proof (claim (init_payload raising_backend false) _ logo _
                eq_refl eq_refl) as Hkept.
  vm_compute in Hkept. discriminate Hkept.
Qed.

(** C10, amended: on a backend that ignores unsupported features (or when no
    attachment is inline) every call of [add_attachment] appends the
    [{name, content}] entry of its attachment, the inline ones included,
    which are signalled and not dropped: after n calls on a payload without
    attachments the array holds exactly the n entries in call order. On a
    backend that raises the signal, the call for an inline attachment raises
    and leaves [data] as it was. *)
Theorem add_attachment_in_call_order (p : Payload) (atts : list Attachment) :
  data p !! "attachment" = None ->
  ignore_unsupported_features (backend p) = true
    ∨ Forall (fun a => inline a = false) atts ->
  (∃ p',
     call_each add_attachment atts p = (Returns tt, p')
     ∧ data p' !! "attachment" =
         (if atts is [] then None
          else Some (VList (attachment_entry <$> atts)))
     ∧ length (attachment_entry <$> atts) = length atts
     ∧ signalled p' =
         signalled p ++ (const "inline attachments" <$> filter inline atts))
  ∧ ∀ (q : Payload) (attachment : Attachment),
      inline attachment = true ->
      ignore_unsupported_features (backend q) = false ->
      ∃ q',
        add_attachment attachment q
        = (Raises (AnymailUnsupportedFeature "inline attachments"), q')
        ∧ data q' = data q.
Proof.
  intros Hnone Hmode. split.
  - destruct (call_each_add_attachment atts p [])
      as (p' & Hrun & Hdata & _ & Hs); [|exact Hmode|].
    { unfold attachments. by rewrite Hnone. }
    exists p'. split; [exact Hrun|]. split; [|split].
    + rewrite Hdata. destruct atts; [exact Hnone|].
      by rewrite lookup_insert_eq.
    + by rewrite length_fmap.
    + exact Hs.
  - intros q attachment Hinline Hraise. eexists.
    rewrite add_attachment_inline_raises by done. split; reflexivity.
Qed.

Lemma add_attachment_in_call_order_witness :
  (∃ p',
     call_each add_attachment [logo; report]
       (init_payload ignoring_backend false) = (Returns tt, p')
     ∧ data p' !! "attachment" =
         Some (VList (attachment_entry <$> [logo; report]))
     ∧ length (attachment_entry <$> [logo; report]) = length [logo; report]
     ∧ signalled p' =
         [] ++ (const "inline attachments" <$> filter inline [logo; report]))
  ∧ ∀ (q : Payload) (attachment : Attachment),
      inline attachment = true ->
      ignore_unsupported_features (backend q) = false ->
      ∃ q',
        add_attachment attachment q
        = (Raises (AnymailUnsupportedFeature "inline attachments"), q')
        ∧ data q' = data q.
Proof.
  apply (add_attachment_in_call_order (init_payload ignoring_backend false)
           [logo; report]).
  - reflexivity.
  - left. reflexivity.
Defined.

(** ** The scheduled time *)

(** Millisecond precision: the digits below a millisecond do not show. *)
Lemma isoformat_milliseconds_truncates (dt : datetime) :
  isoformat_milliseconds dt
  = isoformat_milliseconds
      (with_microsecond (1000 * (microsecond dt / 1000)) dt).
Proof.
  unfold isoformat_milliseconds, with_microsecond. simpl.
  replace ((1000 * (microsecond dt / 1000)) / 1000)%N
    with (microsecond dt / 1000)%N; [reflexivity|].
  rewrite N.mul_comm, N.div_mul; [reflexivity|discriminate].
Qed.



(** *** The rendering is ISO-8601 at millisecond precision *)


























Example isoformat_sample_time :
  isoformat_milliseconds sample_time = "2022-10-11T12:13:14.567+00:00"
  ∧ read_isoformat_milliseconds "2022-10-11T12:13:14.567+00:00"
    = Some (with_microsecond 567000 sample_time).
Proof. vm_compute. auto. Qed.

(** What is no such rendering is not read. *)
Example read_isoformat_rejects :
  read_isoformat_milliseconds "2022-10-11T12:13:14" = None
  ∧ read_isoformat_milliseconds "2022-10-11T12:13:14.567891" = None
  ∧ read_isoformat_milliseconds "2022-10-11 12:13:14.567" = None
  ∧ read_isoformat_milliseconds "" = None.
Proof. vm_compute. auto. Qed.

Example set_send_at_datetime :
  data (set_send_at
          (VDatetime {| year := 2022%N; month := 10%N; day := 11%N;
                        hour := 12%N; minute := 13%N; second := 14%N;
                        microsecond := 567891%N; utcoffset := Some 0%Z |})
          (init_payload raising_backend false)).2 !! "scheduledAt"
  = Some (VStr "2022-10-11T12:13:14.567+00:00").
Proof. vm_compute. reflexivity. Qed.

Example set_send_at_string :
  data (set_send_at (VStr "2022-10-11T12:13:14.567Z")
          (init_payload raising_backend false)).2 !! "scheduledAt"
  = Some (VStr "2022-10-11T12:13:14.567Z").
Proof. vm_compute. reflexivity. Qed.

Example set_send_at_date :
  data (set_send_at (VDate sample_day)
          (init_payload raising_backend false)).2 !! "scheduledAt"
  = Some (VDate sample_day).
Proof. vm_compute. reflexivity. Qed.

(** ** Dictionaries filled by a loop *)

Section StatusMaps.
Context {A V : Type}.
Implicit Types (key : A -> string) (m : gmap string V).

Lemma store_each_snoc key item m (l : list A) (x : A) :
  store_each key item m (l ++ [x])
  = <[key x := item x]> (store_each key item m l).
Proof. unfold store_each. by rewrite foldl_app. Qed.

(** A key that the loop never stores keeps what it held. *)
Lemma store_each_untouched key item m (l : list A) (k : string) :
  (∀ x, x ∈ l -> key x ≠ k) ->
  store_each key item m l !! k = m !! k.
Proof.
  induction l as [|x l IH] using rev_ind; intros Hnot; [reflexivity|].
  rewrite store_each_snoc, lookup_insert_ne.
  - apply IH. intros y Hy. apply Hnot. set_solver.
  - apply Hnot. set_solver.
Qed.

(** A key holds what the last element stored under it. *)
Lemma store_each_last key item m (before after : list A) (x : A) :
  (∀ y, y ∈ after -> key y ≠ key x) ->
  store_each key item m (before ++ x :: after) !! key x = Some (item x).
Proof.
  induction after as [|y after IH] using rev_ind; intros Hnot.
  - by rewrite store_each_snoc, lookup_insert_eq.
  - replace (before ++ x :: after ++ [y]) with ((before ++ x :: after) ++ [y])
      by (by rewrite <- app_assoc).
    rewrite store_each_snoc, lookup_insert_ne.
    + apply IH. intros z Hz. apply Hnot. set_solver.
    + apply Hnot. set_solver.
Qed.

Lemma store_each_dom key item m (l : list A) :
  dom (store_each key item m l) = dom m ∪ list_to_set (key <$> l).
Proof.
  induction l as [|x l IH] using rev_ind.
  - simpl. set_solver.
  - rewrite store_each_snoc, dom_insert_L, IH, fmap_app, list_to_set_app_L.
    simpl. set_solver.
Qed.

End StatusMaps.

(** ** The vendor's response *)

Lemma getitem_str_has_key (v : value) (k : string) (x : value) :
  getitem_str v k = Returns x -> has_key v k = true.
Proof.
  destruct v; simpl; try discriminate.
  - destruct (d !! k) eqn:H; [|discriminate]. intros _.
    apply bool_decide_eq_true_2, elem_of_dom. eauto.
  - destruct (h !! lower k) as [[]|] eqn:H; [|discriminate]. intros _.
    apply bool_decide_eq_true_2, elem_of_dom. eauto.
Qed.

Lemma getitem_str_no_key (v : value) (k : string) :
  has_key v k = false ->
  ∃ e, getitem_str v k = Raises e ∧ KeyError_or_TypeError e = true.
Proof.
  destruct v; simpl; intros H; eauto.
  - apply bool_decide_eq_false_1 in H. rewrite not_elem_of_dom in H.
    rewrite H. eauto.
  - apply bool_decide_eq_false_1 in H. rewrite not_elem_of_dom in H.
    rewrite H. eauto.
Qed.

Lemma has_key_getitem_str (v : value) (k : string) :
  has_key v k = true -> ∃ x, getitem_str v k = Returns x.
Proof.
  destruct v; simpl; try discriminate; intros H.
  - apply bool_decide_eq_true_1, elem_of_dom in H as [x Hx].
    rewrite Hx. eauto.
  - apply bool_decide_eq_true_1, elem_of_dom in H as [[n x] Hx].
    rewrite Hx. eauto.
Qed.

Section Response.

Variable deserialize_json_response :
  EmailBackend -> Response -> Payload -> Message -> outcome value.

Lemma all_with_dom (payload : Payload) (status : AnymailRecipientStatus) :
  dom (all_with payload status)
  = list_to_set (addr_spec <$> all_recipients payload).
Proof. unfold all_with. rewrite store_each_dom. set_solver. Qed.

Lemma all_with_lookup (payload : Payload) (status : AnymailRecipientStatus)
    (recipient : EmailAddress) :
  recipient ∈ all_recipients payload ->
  all_with payload status !! addr_spec recipient = Some status.
Proof.
  intros Hin. apply list_elem_of_split in Hin as (before & after & Hsplit).
  unfold all_with. rewrite Hsplit. clear Hsplit.
  induction after as [|y after IH] using rev_ind.
  - by rewrite store_each_snoc, lookup_insert_eq.
  - replace (before ++ recipient :: after ++ [y])
      with ((before ++ recipient :: after) ++ [y]) by (by rewrite <- app_assoc).
    rewrite store_each_snoc.
    destruct (decide (addr_spec y = addr_spec recipient)) as [->|Hne].
    + by rewrite lookup_insert_eq.
    + by rewrite lookup_insert_ne.
Qed.

Lemma all_with_lookup_None (payload : Payload) (status : AnymailRecipientStatus)
    (address : string) :
  address ∉ addr_spec <$> all_recipients payload ->
  all_with payload status !! address = None.
Proof.
  intros Hnot. apply not_elem_of_dom. rewrite all_with_dom. set_solver.
Qed.

(** The loop over the zipped pairs stores every status, or stops at the
    first id the constructor refuses. *)
Lemma store_statuses_run (m : gmap string AnymailRecipientStatus)
    (pairs : list (EmailAddress * value)) :
  store_statuses m pairs
  = if forallb (fun pair => hashable pair.2) pairs
    then Returns (store_each (fun pair => addr_spec pair.1)
                    (fun pair => queued pair.2) m pairs)
    else Raises TypeError.
Proof.
  revert m. induction pairs as [|[to id] pairs IH]; intros m; [reflexivity|].
  simpl. unfold AnymailRecipientStatus_init.
  destruct (hashable id); simpl; [|reflexivity].
  rewrite IH. reflexivity.
Qed.

Lemma zipped_ids_hashable (tos : list EmailAddress) (ids : list value) :
  (∀ (i : nat) (to : EmailAddress) (id : value),
     tos !! i = Some to -> ids !! i = Some id -> hashable id = true) ->
  forallb (fun pair => hashable pair.2) (zip tos ids) = true.
Proof.
  intros Hall. apply forallb_forall. intros [to id] Hin. simpl.
  apply list_elem_of_In, list_elem_of_lookup in Hin as [i Hi].
  apply lookup_zip_with_Some in Hi as (x & y & [= -> ->] & Hx & Hy).
  by apply (Hall i x).
Qed.

Lemma zipped_ids_unhashable (tos : list EmailAddress) (ids : list value)
    (i : nat) (to : EmailAddress) (id : value) :
  tos !! i = Some to -> ids !! i = Some id -> hashable id = false ->
  forallb (fun pair => hashable pair.2) (zip tos ids) = false.
Proof.
  intros Hto Hid Hno.
  destruct (forallb _ (zip tos ids)) eqn:Hall; [|reflexivity].
  rewrite forallb_forall in Hall. specialize (Hall (to, id)). simpl in Hall.
  rewrite Hall in Hno; [discriminate|].
  apply list_elem_of_In, list_elem_of_lookup. exists i.
  apply lookup_zip_with_Some. eauto.
Qed.

Lemma parse_empty_body (self : EmailBackend) (response : Response)
    (payload : Payload) (message : Message) :
  content response = "" ->
  parse_recipient_status deserialize_json_response self response payload message
  = Returns (all_with payload (queued VNone)).
Proof.
  intros Hempty. unfold parse_recipient_status. rewrite Hempty. reflexivity.
Qed.

(** A body that does not decode: the error of the decoder goes through. *)
Lemma parse_undecodable (self : EmailBackend) (response : Response)
    (payload : Payload) (message : Message) (e : exn) :
  content response ≠ "" ->
  deserialize_json_response self response payload message = Raises e ->
  parse_recipient_status deserialize_json_response self response payload message
  = Raises e.
Proof.
  intros Hbody Hraises. unfold parse_recipient_status.
  destruct (String.eqb_spec (content response) "") as [?|_]; [done|].
  rewrite Hraises. reflexivity.
Qed.

(** The single-id path: one status for everybody, if the constructor takes
    the id. *)
Lemma parse_single_id (self : EmailBackend) (response : Response)
    (payload : Payload) (message : Message) (parsed id : value) :
  content response ≠ "" ->
  deserialize_json_response self response payload message = Returns parsed ->
  getitem_str parsed "messageId" = Returns id ->
  parse_recipient_status deserialize_json_response self response payload message
  = if hashable id then Returns (all_with payload (queued id))
    else Raises TypeError.
Proof.
  intros Hbody Hparsed Hid. unfold parse_recipient_status.
  destruct (String.eqb_spec (content response) "") as [?|_]; [done|].
  rewrite Hparsed. simpl. rewrite Hid. simpl.
  unfold AnymailRecipientStatus_init. destruct (hashable id); reflexivity.
Qed.

Lemma parse_batch_ids (self : EmailBackend) (response : Response)
    (payload : Payload) (message : Message) (parsed ids : value) :
  content response ≠ "" ->
  deserialize_json_response self response payload message = Returns parsed ->
  has_key parsed "messageId" = false ->
  getitem_str parsed "messageIds" = Returns ids ->
  parse_recipient_status deserialize_json_response self response payload message
  = if truthy ids then
      message_ids ← py_iter ids;
      store_statuses (all_with payload (queued VNone))
        (zip (to_recipients payload) message_ids)
    else Returns (all_with payload (queued VNone)).
Proof.
  intros Hbody Hparsed Hno Hids. unfold parse_recipient_status.
  destruct (String.eqb_spec (content response) "") as [?|_]; [done|].
  rewrite Hparsed. simpl.
  destruct (getitem_str_no_key _ _ Hno) as (e & -> & He). simpl.
  rewrite He, Hids. reflexivity.
Qed.

Lemma parse_neither_key (self : EmailBackend) (response : Response)
    (payload : Payload) (message : Message) (parsed : value) :
  content response ≠ "" ->
  deserialize_json_response self response payload message = Returns parsed ->
  has_key parsed "messageId" = false ->
  has_key parsed "messageIds" = false ->
  parse_recipient_status deserialize_json_response self response payload message
  = Raises (AnymailRequestsAPIError "Invalid SendinBlue API response format"
              message payload response self).
Proof.
  intros Hbody Hparsed Hno1 Hno2. unfold parse_recipient_status.
  destruct (String.eqb_spec (content response) "") as [?|_]; [done|].
  rewrite Hparsed. simpl.
  destruct (getitem_str_no_key _ _ Hno1) as (e1 & -> & He1).
  destruct (getitem_str_no_key _ _ Hno2) as (e2 & -> & He2).
  simpl. rewrite He1, He2. reflexivity.
Qed.

Lemma all_with_values (payload : Payload) (status st : AnymailRecipientStatus)
    (address : string) :
  all_with payload status !! address = Some st -> st = status.
Proof.
  intros Hst.
  assert (address ∈ dom (all_with payload status)) as Hdom
    by (apply elem_of_dom; eauto).
  rewrite all_with_dom in Hdom.
  apply elem_of_list_to_set, list_elem_of_fmap in Hdom as (r & -> & Hr).
  rewrite all_with_lookup in Hst by done. by injection Hst as <-.
Qed.

(** C4: when the body of the response is empty, [parse_recipient_status]
    returns a mapping whose keys are the addresses of the recipients in
    [all_recipients], each of them with status queued and no message id. *)
Theorem empty_body_all_queued (self : EmailBackend) (response : Response)
    (payload : Payload) (message : Message) :
  content response = "" ->
  ∃ recipient_status : gmap string AnymailRecipientStatus,
    parse_recipient_status deserialize_json_response self response payload message
    = Returns recipient_status
    ∧ dom recipient_status = list_to_set (addr_spec <$> all_recipients payload)
    ∧ (∀ recipient : EmailAddress,
         recipient ∈ all_recipients payload ->
         recipient_status !! addr_spec recipient
         = Some {| message_id := VNone; status := "queued" |})
    ∧ (∀ (address : string) (st : AnymailRecipientStatus),
         recipient_status !! address = Some st ->
         st = {| message_id := VNone; status := "queued" |}).
Proof.
  intros Hempty. exists (all_with payload (queued VNone)).
  split; [by apply parse_empty_body|].
  split; [apply all_with_dom|].
  split; [intros r Hr; by apply all_with_lookup|].
  intros address st Hst.
  assert (address ∈ dom (all_with payload (queued VNone))) as Hdom
    by (apply elem_of_dom; eauto).
  rewrite all_with_dom in Hdom.
  apply elem_of_list_to_set, list_elem_of_fmap in Hdom as (r & -> & Hr).
  rewrite all_with_lookup in Hst by done. by injection Hst as <-.
Qed.

(** C9, amended: when the decoded body holds both [messageId] and
    [messageIds], the single-id path is taken and [messageIds] is never
    read. With a [messageId] that the status constructor takes (a scalar: a
    string, a number, a boolean, null) the result gives every recipient of
    [all_recipients] that value with status queued, and nothing else; with
    a [messageId] that is an array or an object the call raises the
    TypeError of the constructor. *)
Theorem both_keys_single_id (self : EmailBackend) (response : Response)
    (payload : Payload) (message : Message) (parsed id ids : value) :
  content response ≠ "" ->
  deserialize_json_response self response payload message = Returns parsed ->
  getitem_str parsed "messageId" = Returns id ->
  getitem_str parsed "messageIds" = Returns ids ->
  (hashable id = true ->
   ∃ recipient_status : gmap string AnymailRecipientStatus,
     parse_recipient_status deserialize_json_response self response payload
       message = Returns recipient_status
     ∧ dom recipient_status
       = list_to_set (addr_spec <$> all_recipients payload)
     ∧ (∀ recipient : EmailAddress,
          recipient ∈ all_recipients payload ->
          recipient_status !! addr_spec recipient
          = Some {| message_id := id; status := "queued" |})
     ∧ (∀ (address : string) (st : AnymailRecipientStatus),
          recipient_status !! address = Some st ->
          st = {| message_id := id; status := "queued" |}))
  ∧ (hashable id = false ->
     parse_recipient_status deserialize_json_response self response payload
       message = Raises TypeError).
Proof.
  intros Hbody Hparsed Hid _.
  rewrite (parse_single_id _ _ _ _ _ _ Hbody Hparsed Hid).
  split; intros ->; [|reflexivity].
  exists (all_with payload (queued id)).
  split; [reflexivity|].
  split; [apply all_with_dom|].
  split; [intros r Hr; by apply all_with_lookup|].
  intros address st Hst. by apply all_with_values in Hst.
Qed.

Lemma parse_api_error_inv (self : EmailBackend) (response : Response)
    (payload : Payload) (message : Message) (parsed : value) (e : exn) :
  (content response ≠ "" ->
   deserialize_json_response self response payload message = Returns parsed) ->
  parse_recipient_status deserialize_json_response self response payload message
  = Raises e ->
  is_api_error e = true ->
  content response ≠ ""
  ∧ has_key parsed "messageId" = false
  ∧ has_key parsed "messageIds" = false
  ∧ e = AnymailRequestsAPIError "Invalid SendinBlue API response format"
          message payload response self.
Proof.
  intros Hdecoded Hraises Hapi.
  destruct (decide (content response = "")) as [Hempty|Hbody].
  { rewrite parse_empty_body in Hraises by done. discriminate. }
  specialize (Hdecoded Hbody).
  destruct (has_key parsed "messageId") eqn:Hid.
  { apply has_key_getitem_str in Hid as [id Hid].
    rewrite (parse_single_id _ _ _ _ _ _ Hbody Hdecoded Hid) in Hraises.
    destruct (hashable id); [discriminate|].
    injection Hraises as <-. discriminate. }
  destruct (has_key parsed "messageIds") eqn:Hids.
  { apply has_key_getitem_str in Hids as [ids Hids].
    rewrite (parse_batch_ids _ _ _ _ _ _ Hbody Hdecoded Hid Hids) in Hraises.
    destruct (truthy ids); [|discriminate].
    destruct (py_iter ids) as [message_ids|e'] eqn:Hiter; simpl in Hraises.
    - rewrite store_statuses_run in Hraises.
      destruct (forallb _ _); [discriminate|].
      injection Hraises as <-. discriminate.
    - destruct ids; simpl in Hiter; try discriminate;
        injection Hiter as <-; injection Hraises as <-; discriminate. }
  rewrite (parse_neither_key _ _ _ _ _ Hbody Hdecoded Hid Hids) in Hraises.
  injection Hraises as <-. done.
Qed.

(** C5: for a response whose body, when there is one, decodes,
    [parse_recipient_status] raises an API error if and only if the body is
    not empty and the decoded JSON holds neither [messageId] nor
    [messageIds]; the error raised carries the message, the payload and the
    response it was given. *)
Theorem api_format_error_iff (self : EmailBackend) (response : Response)
    (payload : Payload) (message : Message) (parsed : value) :
  (content response ≠ "" ->
   deserialize_json_response self response payload message = Returns parsed) ->
  ((∃ e : exn,
      parse_recipient_status deserialize_json_response self response payload
        message = Raises e
      ∧ is_api_error e = true)
   ↔ content response ≠ ""
     ∧ has_key parsed "messageId" = false
     ∧ has_key parsed "messageIds" = false)
  ∧ ∀ e : exn,
      parse_recipient_status deserialize_json_response self response payload
        message = Raises e ->
      is_api_error e = true ->
      e = AnymailRequestsAPIError "Invalid SendinBlue API response format"
            message payload response self.
Proof.
  intros Hdecoded. split; [split|].
  - intros (e & Hraises & Hapi).
    by destruct (parse_api_error_inv _ _ _ _ _ _ Hdecoded Hraises Hapi)
      as (? & ? & ? & _).
  - intros (Hbody & Hid & Hids). eexists. split.
    + by apply (parse_neither_key _ _ _ _ parsed); [|apply Hdecoded|..].
    + reflexivity.
  - intros e Hraises Hapi.
    by destruct (parse_api_error_inv _ _ _ _ _ _ Hdecoded Hraises Hapi)
      as (_ & _ & _ & ->).
Qed.

(** The batch path on an array of ids. *)
Lemma parse_batch_list (self : EmailBackend) (response : Response)
    (payload : Payload) (message : Message) (parsed : value)
    (ids : list value) :
  content response ≠ "" ->
  deserialize_json_response self response payload message = Returns parsed ->
  has_key parsed "messageId" = false ->
  getitem_str parsed "messageIds" = Returns (VList ids) ->
  parse_recipient_status deserialize_json_response self response payload message
  = if forallb (fun pair => hashable pair.2) (zip (to_recipients payload) ids)
    then Returns (store_each (fun pair => addr_spec pair.1)
                    (fun pair => queued pair.2)
                    (all_with payload (queued VNone))
                    (zip (to_recipients payload) ids))
    else Raises TypeError.
Proof.
  intros Hbody Hdecoded Hid Hids.
  rewrite (parse_batch_ids _ _ _ _ _ _ Hbody Hdecoded Hid Hids).
  destruct ids as [|id ids]; simpl.
  - by rewrite zip_with_nil_r.
  - apply store_statuses_run.
Qed.

(** C2, amended: when the decoded body has no [messageId] and its
    [messageIds] is an array, the ids go to the addresses of
    [to_recipients] position by position. If every id that stands at the
    position of a to-recipient is one the status constructor takes (a
    scalar), the call returns a mapping, keyed by address, that keeps for
    an address what was stored last: the to-address at a position i within
    the array gets the i-th id (status queued) unless the same address
    stands at a later position within the array, and every recipient of
    [all_recipients] whose address is at no position within the array (cc
    and bcc recipients, to-addresses past the end of the array) keeps status
    queued with no message id. If one of those ids is an array or an object,
    the call raises the TypeError of the constructor. *)
Theorem batch_ids_zipped (self : EmailBackend) (response : Response)
    (payload : Payload) (message : Message) (parsed : value)
    (ids : list value) :
  content response ≠ "" ->
  deserialize_json_response self response payload message = Returns parsed ->
  has_key parsed "messageId" = false ->
  getitem_str parsed "messageIds" = Returns (VList ids) ->
  ((∀ (i : nat) (to : EmailAddress) (id : value),
      to_recipients payload !! i = Some to ->
      ids !! i = Some id ->
      hashable id = true) ->
   ∃ recipient_status : gmap string AnymailRecipientStatus,
     parse_recipient_status deserialize_json_response self response payload
       message = Returns recipient_status
     ∧ (∀ (i : nat) (to : EmailAddress) (id : value),
          to_recipients payload !! i = Some to ->
          ids !! i = Some id ->
          (∀ (j : nat) (later : EmailAddress),
             i < j -> j < length ids ->
             to_recipients payload !! j = Some later ->
             addr_spec later ≠ addr_spec to) ->
          recipient_status !! addr_spec to
          = Some {| message_id := id; status := "queued" |})
     ∧ (∀ recipient : EmailAddress,
          recipient ∈ all_recipients payload ->
          (∀ (j : nat) (to : EmailAddress),
             j < length ids ->
             to_recipients payload !! j = Some to ->
             addr_spec to ≠ addr_spec recipient) ->
          recipient_status !! addr_spec recipient
          = Some {| message_id := VNone; status := "queued" |}))
  ∧ (∀ (i : nat) (to : EmailAddress) (id : value),
       to_recipients payload !! i = Some to ->
       ids !! i = Some id ->
       hashable id = false ->
       parse_recipient_status deserialize_json_response self response payload
         message = Raises TypeError).
Proof.
  intros Hbody Hdecoded Hid Hids.
  rewrite (parse_batch_list _ _ _ _ _ _ Hbody Hdecoded Hid Hids).
  split.
  - intros Hscalar. rewrite (zipped_ids_hashable _ _ Hscalar).
    eexists. split; [reflexivity|]. split.
    + intros i to id Hto Hidi Hlater.
      assert (zip (to_recipients payload) ids !! i = Some (to, id)) as Hzip.
      { apply lookup_zip_with_Some. eauto. }
      rewrite <- (take_drop_middle _ _ _ Hzip).
      apply (store_each_last
               (fun pair : EmailAddress * value => addr_spec pair.1)
               (fun pair => queued pair.2) _ _ _ (to, id)).
      intros [later id'] Hin. simpl.
      apply list_elem_of_lookup in Hin as [k Hk].
      rewrite lookup_drop in Hk.
      apply lookup_zip_with_Some in Hk as (x & y & Heq & Hx & Hy).
      injection Heq as -> ->.
      apply (Hlater (S i + k)); [lia| |exact Hx].
      by apply lookup_lt_Some in Hy.
    + intros recipient Hin Hnot.
      rewrite store_each_untouched; [by apply all_with_lookup|].
      intros [to id] Hzip. simpl.
      apply list_elem_of_lookup in Hzip as [j Hj].
      apply lookup_zip_with_Some in Hj as (x & y & Heq & Hx & Hy).
      injection Heq as -> ->.
      apply (Hnot j); [|exact Hx]. by apply lookup_lt_Some in Hy.
  - intros i to id Hto Hidi Hno.
    by rewrite (zipped_ids_unhashable _ _ _ _ _ Hto Hidi Hno).
Qed.

End Response.

(** ** Sample responses *)

Example sample_body_batch :
  sample_body batch_ids_body
  = "{" +:+ dquote +:+ "messageIds" +:+ dquote +:+ ": ["
      +:+ dquote +:+ "<id-1@relay>" +:+ dquote +:+ ", "
      +:+ dquote +:+ "<id-2@relay>" +:+ dquote +:+ "]}".
Proof. vm_compute. reflexivity. Qed.

Lemma empty_body_all_queued_witness :
  ∃ recipient_status : gmap string AnymailRecipientStatus,
    parse_recipient_status sample_decoder raising_backend {| content := "" |}
      three_recipients sample_message
    = Returns recipient_status
    ∧ dom recipient_status
      = list_to_set (addr_spec <$> all_recipients three_recipients)
    ∧ (∀ recipient : EmailAddress,
         recipient ∈ all_recipients three_recipients ->
         recipient_status !! addr_spec recipient
         = Some {| message_id := VNone; status := "queued" |})
    ∧ (∀ (address : string) (st : AnymailRecipientStatus),
         recipient_status !! address = Some st ->
         st = {| message_id := VNone; status := "queued" |}).
Proof.
  apply (empty_body_all_queued sample_decoder raising_backend
           {| content := "" |} three_recipients sample_message).
  reflexivity.
Defined.

Lemma both_keys_single_id_witness :
  (∃ recipient_status : gmap string AnymailRecipientStatus,
     parse_recipient_status sample_decoder raising_backend
       (response_of both_keys_body) three_recipients sample_message
     = Returns recipient_status
     ∧ dom recipient_status
       = list_to_set (addr_spec <$> all_recipients three_recipients)
     ∧ (∀ recipient : EmailAddress,
          recipient ∈ all_recipients three_recipients ->
          recipient_status !! addr_spec recipient
          = Some {| message_id := VStr "<202211.1@smtp-relay.mailin.fr>";
                    status := "queued" |})
     ∧ (∀ (address : string) (st : AnymailRecipientStatus),
          recipient_status !! address = Some st ->
          st = {| message_id := VStr "<202211.1@smtp-relay.mailin.fr>";
                  status := "queued" |}))
  ∧ parse_recipient_status odd_decoder raising_backend
      (response_of list_id_body) three_recipients sample_message
    = Raises TypeError.
Proof.
  split.
  - apply (both_keys_single_id sample_decoder raising_backend
             (response_of both_keys_body) three_recipients sample_message
             both_keys_body (VStr "<202211.1@smtp-relay.mailin.fr>")
             (VList [VStr "<id-1@relay>"; VStr "<id-2@relay>"])).
    + vm_compute. discriminate.
    + vm_compute. reflexivity.
    + vm_compute. reflexivity.
    + vm_compute. reflexivity.
    + reflexivity.
  - apply (both_keys_single_id odd_decoder raising_backend
             (response_of list_id_body) three_recipients sample_message
             list_id_body (VList [VStr "<id-0@relay>"])
             (VList [VStr "<id-1@relay>"; VStr "<id-2@relay>"])).
    + vm_compute. discriminate.
    + vm_compute. reflexivity.
    + vm_compute. reflexivity.
    + vm_compute. reflexivity.
    + reflexivity.
Defined.

(** What the code returns for a body with both keys: the [messageId] for
    alice, bob and carol alike. *)
Example both_keys_three_recipients :
  let result :=
    parse_recipient_status sample_decoder raising_backend
      (response_of both_keys_body) three_recipients sample_message in
  status_of result "alice@example.com"
    = Returns (Some (queued (VStr "<202211.1@smtp-relay.mailin.fr>")))
  ∧ status_of result "bob@example.com"
    = Returns (Some (queued (VStr "<202211.1@smtp-relay.mailin.fr>")))
  ∧ status_of result "carol@example.com"
    = Returns (Some (queued (VStr "<202211.1@smtp-relay.mailin.fr>"))).
Proof. vm_compute. auto. Qed.

(** A [messageId] that is an array: the status constructor refuses it. *)
Example list_message_id_raises :
  parse_recipient_status odd_decoder raising_backend
    (response_of list_id_body) three_recipients sample_message
  = Raises TypeError.
Proof. vm_compute. reflexivity. Qed.

(** An array of ids whose second id is an array itself: the constructor
    refuses it when the loop reaches bob. *)
Example nested_message_ids_raise :
  parse_recipient_status odd_decoder raising_backend
    (response_of nested_ids_body) three_recipients sample_message
  = Raises TypeError.
Proof. vm_compute. reflexivity. Qed.

(** C9, refuted as worded: a body whose [messageId] is an array holds both
    keys, and no recipient receives that value: the call raises. *)
Lemma both_keys_any_id_counterexample :
  ¬ both_keys_any_id odd_decoder.
Proof.
  intros claim.
  destruct (claim raising_backend (response_of list_id_body) three_recipients
              sample_message list_id_body (VList [VStr "<id-0@relay>"])
              (VList [VStr "<id-1@relay>"; VStr "<id-2@relay>"]))
    as (recipient_status & Hrun & _).
  - vm_compute. discriminate.
  - vm_compute. reflexivity.
  - vm_compute. reflexivity.
  - vm_compute. reflexivity.
  - rewrite list_message_id_raises in Hrun. discriminate.
Qed.

Lemma api_format_error_iff_witness :
  ((∃ e : exn,
      parse_recipient_status sample_decoder raising_backend
        (response_of foo_bar_body) three_recipients sample_message = Raises e
      ∧ is_api_error e = true)
   ↔ content (response_of foo_bar_body) ≠ ""
     ∧ has_key foo_bar_body "messageId" = false
     ∧ has_key foo_bar_body "messageIds" = false)
  ∧ ∀ e : exn,
      parse_recipient_status sample_decoder raising_backend
        (response_of foo_bar_body) three_recipients sample_message = Raises e ->
      is_api_error e = true ->
      e = AnymailRequestsAPIError "Invalid SendinBlue API response format"
            sample_message three_recipients (response_of foo_bar_body)
            raising_backend.
Proof.
  apply (api_format_error_iff sample_decoder raising_backend
           (response_of foo_bar_body) three_recipients sample_message
           foo_bar_body).
  intros _. vm_compute. reflexivity.
Defined.

Example foo_bar_is_rejected :
  parse_recipient_status sample_decoder raising_backend
    (response_of foo_bar_body) three_recipients sample_message
  = Raises (AnymailRequestsAPIError "Invalid SendinBlue API response format"
              sample_message three_recipients (response_of foo_bar_body)
              raising_backend).
Proof.
  apply (parse_neither_key _ _ _ _ _ foo_bar_body).
  - vm_compute. discriminate.
  - vm_compute. reflexivity.
  - vm_compute. reflexivity.
  - vm_compute. reflexivity.
Qed.

Lemma batch_ids_zipped_witness :
  (∃ recipient_status : gmap string AnymailRecipientStatus,
     parse_recipient_status sample_decoder raising_backend
       (response_of batch_ids_body) three_recipients sample_message
     = Returns recipient_status
     ∧ (∀ (i : nat) (to : EmailAddress) (id : value),
          to_recipients three_recipients !! i = Some to ->
          [VStr "<id-1@relay>"; VStr "<id-2@relay>"] !! i = Some id ->
          (∀ (j : nat) (later : EmailAddress),
             i < j -> j < length [VStr "<id-1@relay>"; VStr "<id-2@relay>"] ->
             to_recipients three_recipients !! j = Some later ->
             addr_spec later ≠ addr_spec to) ->
          recipient_status !! addr_spec to
          = Some {| message_id := id; status := "queued" |})
     ∧ (∀ recipient : EmailAddress,
          recipient ∈ all_recipients three_recipients ->
          (∀ (j : nat) (to : EmailAddress),
             j < length [VStr "<id-1@relay>"; VStr "<id-2@relay>"] ->
             to_recipients three_recipients !! j = Some to ->
             addr_spec to ≠ addr_spec recipient) ->
          recipient_status !! addr_spec recipient
          = Some {| message_id := VNone; status := "queued" |}))
  ∧ parse_recipient_status odd_decoder raising_backend
      (response_of nested_ids_body) three_recipients sample_message
    = Raises TypeError.
Proof.
  split.
  - apply (batch_ids_zipped sample_decoder raising_backend
             (response_of batch_ids_body) three_recipients sample_message
             batch_ids_body [VStr "<id-1@relay>"; VStr "<id-2@relay>"]).
    + vm_compute. discriminate.
    + vm_compute. reflexivity.
    + vm_compute. reflexivity.
    + vm_compute. reflexivity.
    + intros [|[|i]] to id _ Hid; simpl in Hid; try discriminate;
        injection Hid as <-; reflexivity.
  - refine (proj2 (batch_ids_zipped odd_decoder raising_backend
                     (response_of nested_ids_body) three_recipients
                     sample_message nested_ids_body
                     [VStr "<id-1@relay>"; VList [VStr "<id-2@relay>"]]
                     _ _ _ _)
              1 bob (VList [VStr "<id-2@relay>"]) _ _ _).
    + vm_compute. discriminate.
    + vm_compute. reflexivity.
    + vm_compute. reflexivity.
    + vm_compute. reflexivity.
    + reflexivity.
    + reflexivity.
    + reflexivity.
Defined.

(** What the code returns for two ids and the recipients alice, bob (to) and
    carol (cc). *)
Example batch_ids_three_recipients :
  let result :=
    parse_recipient_status sample_decoder raising_backend
      (response_of batch_ids_body) three_recipients sample_message in
  status_of result "alice@example.com"
    = Returns (Some (queued (VStr "<id-1@relay>")))
  ∧ status_of result "bob@example.com"
    = Returns (Some (queued (VStr "<id-2@relay>")))
  ∧ status_of result "carol@example.com" = Returns (Some (queued VNone))
  ∧ status_of result "dave@example.com" = Returns None.
Proof. vm_compute. auto. Qed.

(** What the code returns when the to list holds alice twice: one entry, with
    the second id. *)
Example batch_ids_alice_twice :
  status_of
    (parse_recipient_status sample_decoder raising_backend
       (response_of batch_ids_body) alice_twice sample_message)
    "alice@example.com"
  = Returns (Some (queued (VStr "<id-2@relay>"))).
Proof. vm_compute. reflexivity. Qed.

(** C2, refuted as worded: with the same address twice in the to list, the
    address at position 0 does not get the id at position 0. *)
Lemma batch_ids_positional_counterexample :
  ¬ batch_ids_positional sample_decoder.
Proof.
  intros claim.
  destruct (claim raising_backend (response_of batch_ids_body) alice_twice
              sample_message batch_ids_body
              [VStr "<id-1@relay>"; VStr "<id-2@relay>"])
    as (recipient_status & Hrun & Hpositional & _).
  - vm_compute. discriminate.
  - vm_compute. reflexivity.
  - vm_compute. reflexivity.
  - vm_compute. reflexivity.
  - pose proof batch_ids_alice_twice as Hsecond.
    rewrite Hrun in Hsecond. unfold status_of in Hsecond. simpl in Hsecond.
    specialize (Hpositional 0 alice (VStr "<id-1@relay>") eq_refl eq_refl).
    simpl in Hpositional. rewrite Hpositional in Hsecond. discriminate.
Qed.

(** ** Batch serialization *)

Lemma email_object_has_email (email : EmailAddress) :
  has_email (email_object email) (addr_spec email).
Proof.
  unfold has_email, email_object.
  destruct (String.eqb (display_name email) ""); reflexivity.
Qed.

Lemma message_version_run (md : gmap string value) (to : value) (e : string) :
  has_email to e ->
  message_version md to = Returns (VDict (base_version md to e)).
Proof.
  unfold has_email, message_version. intros ->. reflexivity.
Qed.

Lemma mapM_message_version (md : gmap string value) (tos : list value)
    (emails : list string) :
  Forall2 has_email tos emails ->
  mapM (message_version md) tos
  = Returns (zip_with (fun to e => VDict (base_version md to e)) tos emails).
Proof.
  induction 1 as [|to e tos emails Hto _ IH]; [reflexivity|].
  simpl. rewrite (message_version_run _ _ _ Hto). simpl. rewrite IH.
  reflexivity.
Qed.

Lemma base_version_email (md : gmap string value) (to : value) (e : string) :
  has_email to e ->
  (to' ← getitem_str (VDict (base_version md to e)) "to";
   first ← getitem_0 to'; getitem_str first "email")
  = Returns (VStr e).
Proof. intros Hto. exact Hto. Qed.

Lemma has_emails_exist (tos : list value) :
  (∀ to, to ∈ tos -> ∃ e, has_email to e) ->
  ∃ emails, Forall2 has_email tos emails.
Proof.
  induction tos as [|to tos IH]; intros Hall.
  - exists []. constructor.
  - destruct (Hall to) as [e He]; [set_solver|].
    destruct IH as [emails Hemails]; [intros; apply Hall; set_solver|].
    exists (e :: emails). by constructor.
Qed.

Lemma with_data_with_data (f g : gmap string value -> gmap string value)
    (p : Payload) :
  with_data f (with_data g p) = with_data (fun d => f (g d)) p.
Proof. reflexivity. Qed.

Lemma with_data_insert_id (k : string) (x : value) (p : Payload) :
  data p !! k = Some x ->
  with_data (insert k x) p = p.
Proof.
  intros Hk. destruct p. unfold with_data. simpl in *.
  by rewrite insert_id.
Qed.

Lemma with_data_insert_insert (k : string) (x y : value) (p : Payload) :
  with_data (insert k y) (with_data (insert k x) p) = with_data (insert k y) p.
Proof. unfold with_data. simpl. by rewrite insert_insert_eq. Qed.

Section Serialization.

Variable serialize_json : value -> outcome string.

Section Loop.

Variables (md : gmap string value) (mm : gmap string (gmap string value))
  (meta : gmap string value).

(** One turn of the loop, on a version as the comprehension built it. *)
Lemma recipient_headers_step (done rest : list value) (p : Payload)
    (to : value) (e : string) :
  has_email to e ->
  merge_metadata p = mm ->
  metadata p = meta ->
  recipient_headers serialize_json done (VDict (base_version md to e) :: rest) p
  = match mm !! e with
    | Some override =>
        match serialize_json (VDict (override ∪ meta)) with
        | Returns s =>
            let version' :=
              VDict (<["headers" := custom_header s]> (base_version md to e)) in
            recipient_headers serialize_json (done ++ [version']) rest
              (with_data
                 (insert "messageVersions" (VList (done ++ version' :: rest))) p)
        | Raises x => (Raises x, p)
        end
    | None =>
        recipient_headers serialize_json
          (done ++ [VDict (base_version md to e)]) rest p
    end.
Proof.
  intros Hto Hmm Hmeta.
  change (recipient_headers serialize_json done
            (VDict (base_version md to e) :: rest) p)
    with ((to_email ←
             lift (to' ← getitem_str (VDict (base_version md to e)) "to";
                   first ← getitem_0 to';
                   getitem_str first "email");
           mm' ← gets merge_metadata;
           override ← lift (dict_get mm' to_email);
           match override with
           | Some recipient_override =>
               md' ← gets metadata;
               s ← lift (serialize_json (VDict (recipient_override ∪ md')));
               version' ← lift (setitem_str (VDict (base_version md to e))
                                  "headers" (custom_header s));
               data_set "messageVersions" (VList (done ++ version' :: rest));;
               recipient_headers serialize_json (done ++ [version']) rest
           | None =>
               recipient_headers serialize_json
                 (done ++ [VDict (base_version md to e)]) rest
           end) p).
  rewrite (base_version_email md to e Hto).
  rewrite run_bind. unfold lift at 1.
  rewrite run_bind. unfold gets at 1. rewrite Hmm.
  rewrite run_bind. unfold lift at 1. unfold dict_get.
  destruct (mm !! e) as [override|]; [|reflexivity].
  rewrite run_bind. unfold gets at 1. rewrite Hmeta.
  rewrite run_bind. unfold lift at 1.
  destruct (serialize_json (VDict (override ∪ meta))) as [s|x]; reflexivity.
Qed.

Lemma touched_base (tos : list value) (emails : list string) :
  Forall2 has_email tos emails ->
  Forall3 (touched serialize_json md mm meta) tos emails
    (base_versions md tos emails).
Proof.
  induction 1; simpl; constructor; [by left|done].
Qed.

Lemma recipient_headers_run (tos : list value) (emails : list string) :
  Forall2 has_email tos emails ->
  ∀ (done : list value) (p : Payload),
    merge_metadata p = mm -> metadata p = meta ->
    data p !! "messageVersions"
    = Some (VList (done ++ base_versions md tos emails)) ->
    ∃ (o : outcome unit) (versions : list value),
      recipient_headers serialize_json done (base_versions md tos emails) p
      = (o, with_data (insert "messageVersions" (VList (done ++ versions))) p)
      ∧ Forall3 (touched serialize_json md mm meta) tos emails versions
      ∧ (overrides_serialize serialize_json mm meta emails ->
         o = Returns tt
         ∧ Forall3 (finished serialize_json md mm meta) tos emails versions).
Proof.
  induction 1 as [|to e tos emails Hto Hrest IH]; intros done p Hmm Hmeta Hmv.
  - exists (Returns tt), []. unfold base_versions in *. simpl zip_with in *.
    rewrite with_data_insert_id by done.
    split; [reflexivity|]. split; [constructor|].
    intros _. split; [done|constructor].
  - change (base_versions md (to :: tos) (e :: emails))
      with (VDict (base_version md to e) :: base_versions md tos emails) in *.
    rewrite (recipient_headers_step _ _ _ _ _ Hto Hmm Hmeta).
    destruct (mm !! e) as [override|] eqn:Hoverride.
    + destruct (serialize_json (VDict (override ∪ meta))) as [s|x] eqn:Hs.
      * cbv zeta.
        set (version' := VDict (<["headers" := custom_header s]>
                                  (base_version md to e))).
        destruct (IH (done ++ [version'])
                    (with_data (insert "messageVersions"
                       (VList (done ++ version'
                                 :: base_versions md tos emails))) p))
          as (o & versions & Hrun & Htouched & Hfinished); try done.
        { change (data (with_data ?f p)) with (f (data p)).
          rewrite lookup_insert_eq. by rewrite <- app_assoc. }
        exists o, (version' :: versions). rewrite Hrun.
        rewrite with_data_insert_insert, <- app_assoc.
        split; [reflexivity|]. split.
        { constructor; [|done]. right. eauto. }
        intros Hall. destruct Hfinished as [-> Hfin].
        { intros e' o' He'. apply Hall. set_solver. }
        split; [done|]. constructor; [|done].
        unfold finished. rewrite Hoverride. eauto.
      * exists (Raises x),
          (VDict (base_version md to e) :: base_versions md tos emails).
        rewrite with_data_insert_id by done.
        split; [reflexivity|]. split.
        { constructor; [by left|]. by apply touched_base. }
        intros Hall. destruct (Hall e override) as [s Hs']; [set_solver|done|].
        congruence.
    + destruct (IH (done ++ [VDict (base_version md to e)]) p)
        as (o & versions & Hrun & Htouched & Hfinished); try done.
      { rewrite Hmv. by rewrite <- app_assoc. }
      exists o, (VDict (base_version md to e) :: versions). rewrite Hrun.
      rewrite <- app_assoc.
      split; [reflexivity|]. split.
      { constructor; [by left|done]. }
      intros Hall. destruct Hfinished as [-> Hfin].
      { intros e' o' He'. apply Hall. set_solver. }
      split; [done|]. constructor; [|done].
      unfold finished. by rewrite Hoverride.
Qed.

End Loop.

Lemma with_data_delete_id (k : string) (p : Payload) :
  data p !! k = None -> with_data (delete k) p = p.
Proof.
  intros Hk. destruct p. unfold with_data. simpl in *.
  by rewrite delete_id.
Qed.

Lemma data_pop_to (p : Payload) (tos : list value) :
  default (VList []) (data p !! "to") = VList tos ->
  data_pop "to" (VList []) p
  = (Returns (VList tos), with_data (delete "to") p).
Proof.
  intros Hto. unfold data_pop. rewrite run_bind. unfold gets at 1.
  destruct (data p !! "to") as [x|] eqn:Hx; simpl in Hto; subst.
  - reflexivity.
  - injection Hto as <-. by rewrite with_data_delete_id.
Qed.

Lemma finished_base md mm meta (tos : list value) (emails : list string) :
  dom mm = ∅ ->
  Forall2 has_email tos emails ->
  Forall3 (finished serialize_json md mm meta) tos emails
    (base_versions md tos emails).
Proof.
  intros Hdom. apply dom_empty_iff_L in Hdom as ->.
  induction 1; simpl; constructor; [|done].
  unfold finished. by rewrite lookup_empty.
Qed.

Lemma burst_recipients_run (p : Payload) (tos : list value)
    (emails : list string) :
  default (VList []) (data p !! "to") = VList tos ->
  Forall2 has_email tos emails ->
  ∃ (o : outcome unit) (versions : list value),
    burst_recipients serialize_json p
    = (o, with_data (insert "messageVersions" (VList versions))
            (with_data (delete "to") p))
    ∧ Forall3
        (touched serialize_json (merge_data p) (merge_metadata p) (metadata p))
        tos emails versions
    ∧ (overrides_serialize serialize_json (merge_metadata p) (metadata p)
         emails ->
       o = Returns tt
       ∧ Forall3
           (finished serialize_json (merge_data p) (merge_metadata p)
              (metadata p))
           tos emails versions).
Proof.
  intros Hto Hemails. unfold burst_recipients.
  rewrite run_bind, (data_pop_to _ _ Hto).
  rewrite run_bind. unfold gets at 1.
  rewrite run_bind. unfold lift at 1.
  change (merge_data (with_data (delete "to") p)) with (merge_data p).
  change (py_iter (VList tos) ≫= _)
    with (mapM (message_version (merge_data p)) tos).
  rewrite (mapM_message_version _ _ _ Hemails).
  fold (base_versions (merge_data p) tos emails).
  rewrite run_bind, run_data_set.
  rewrite run_bind. unfold gets at 1.
  set (p2 := with_data (insert "messageVersions"
                (VList (base_versions (merge_data p) tos emails)))
               (with_data (delete "to") p)).
  change (merge_metadata p2) with (merge_metadata p).
  case_bool_decide as Hdom.
  - exists (Returns tt), (base_versions (merge_data p) tos emails).
    split; [reflexivity|]. split; [by apply touched_base|].
    intros _. split; [done|]. by apply finished_base.
  - rewrite run_bind. unfold data_get at 1.
    rewrite run_bind. unfold gets at 1.
    change (data p2 !! "messageVersions")
      with (<["messageVersions" :=
                VList (base_versions (merge_data p) tos emails)]>
              (delete "to" (data p)) !! "messageVersions").
    rewrite lookup_insert_eq.
    unfold mret at 1, M_ret at 1. cbv beta iota.
    rewrite run_bind. unfold lift at 1. simpl py_iter. cbv beta iota.
    destruct (recipient_headers_run (merge_data p) (merge_metadata p)
                (metadata p) tos emails Hemails [] p2)
      as (o & versions & Hrun & Htouched & Hfinished); try done.
    { unfold p2. change (data (with_data ?f ?q)) with (f (data q)).
      by rewrite lookup_insert_eq. }
    exists o, versions. split; [|done].
    rewrite Hrun. unfold p2. by rewrite with_data_insert_insert.
Qed.

(** The part of [serialize_data] that follows the batch block. *)
Lemma serialize_data_tail (p : Payload) :
  (headers ← data_get "headers";
   (if truthy headers then mret tt else data_del "headers");;
   d ← gets data;
   lift (serialize_json (VDict d))) p
  = match data p !! "headers" with
    | None => (Raises KeyError, p)
    | Some headers =>
        if truthy headers then (serialize_json (VDict (data p)), p)
        else (serialize_json (VDict (delete "headers" (data p))),
              with_data (delete "headers") p)
    end.
Proof.
  rewrite run_bind. unfold data_get at 1. rewrite run_bind. unfold gets at 1.
  destruct (data p !! "headers") as [headers|] eqn:Hheaders; [|reflexivity].
  unfold mret at 1, M_ret at 1.
  rewrite run_bind.
  destruct (truthy headers).
  - reflexivity.
  - unfold data_del. rewrite run_bind. unfold gets at 1. rewrite Hheaders.
    reflexivity.
Qed.

(** Where a batch payload stands when [serialize_data] is over, whether it
    returned or raised. *)
Lemma serialize_data_batch (p : Payload) (tos : list value)
    (emails : list string) :
  is_batch p = true ->
  default (VList []) (data p !! "to") = VList tos ->
  Forall2 has_email tos emails ->
  ∃ (o : outcome string) (p' : Payload) (versions : list value),
    serialize_data serialize_json p = (o, p')
    ∧ data p' !! "to" = None
    ∧ data p' !! "messageVersions" = Some (VList versions)
    ∧ Forall3
        (touched serialize_json (merge_data p) (merge_metadata p) (metadata p))
        tos emails versions
    ∧ (overrides_serialize serialize_json (merge_metadata p) (metadata p)
         emails ->
       Forall3
         (finished serialize_json (merge_data p) (merge_metadata p)
            (metadata p))
         tos emails versions
       ∧ data p' !! "headers"
         = (headers ← data p !! "headers";
            if truthy headers then Some headers else None)).
Proof.
  intros Hbatch Hto Hemails. unfold serialize_data.
  rewrite run_bind. unfold gets at 1. rewrite Hbatch.
  destruct (burst_recipients_run p tos emails Hto Hemails)
    as (o & versions & Hrun & Htouched & Hfinished).
  rewrite run_bind, Hrun.
  set (p3 := with_data (insert "messageVersions" (VList versions))
               (with_data (delete "to") p)) in *.
  assert (data p3 !! "to" = None) as Hno_to.
  { unfold p3.
    change (data (with_data ?f (with_data ?g p))) with (f (g (data p))).
    rewrite lookup_insert_ne by done. apply lookup_delete_eq. }
  assert (data p3 !! "messageVersions" = Some (VList versions)) as Hmv.
  { unfold p3.
    change (data (with_data ?f (with_data ?g p))) with (f (g (data p))).
    apply lookup_insert_eq. }
  assert (data p3 !! "headers" = data p !! "headers") as Hheaders.
  { unfold p3.
    change (data (with_data ?f (with_data ?g p))) with (f (g (data p))).
    rewrite lookup_insert_ne by done. by rewrite lookup_delete_ne. }
  destruct o as [[]|x].
  - rewrite serialize_data_tail, Hheaders.
    destruct (data p !! "headers") as [headers|] eqn:Hh.
    + destruct (truthy headers) eqn:Htruthy.
      * eexists _, _, versions. split; [reflexivity|].
        do 3 (split; [done|]). intros Hall. split; [by apply Hfinished|].
        simpl. by rewrite Htruthy.
      * eexists _, _, versions. split; [reflexivity|].
        change (data (with_data ?f p3)) with (f (data p3)).
        rewrite !lookup_delete_ne by done. rewrite lookup_delete_eq.
        do 3 (split; [done|]). intros Hall. split; [by apply Hfinished|].
        simpl. by rewrite Htruthy.
    + eexists _, _, versions. split; [reflexivity|].
      do 3 (split; [done|]). intros Hall. split; [by apply Hfinished|].
      by rewrite Hheaders.
  - eexists _, _, versions. split; [reflexivity|].
    do 3 (split; [done|]). intros Hall.
    by destruct (Hfinished Hall) as [? _].
Qed.

Lemma has_email_inj (to : value) (e e' : string) :
  has_email to e -> has_email to e' -> e = e'.
Proof. unfold has_email. intros -> H. by injection H. Qed.

(** From the versions as a whole to the version at one position. *)
Lemma version_at {P : value -> string -> value -> Prop} (tos : list value)
    (emails : list string) (versions : list value) (i : nat) (to : value)
    (e : string) :
  Forall2 has_email tos emails ->
  Forall3 P tos emails versions ->
  tos !! i = Some to ->
  has_email to e ->
  ∃ version, versions !! i = Some version ∧ P to e version.
Proof.
  intros Hemails Hversions Hto He.
  destruct (Forall2_lookup_l _ _ _ _ _ Hemails Hto) as (e' & He' & Hto').
  rewrite (has_email_inj _ _ _ He Hto').
  destruct (lookup_lt_is_Some_2 versions i) as [version Hversion].
  { rewrite <- (Forall3_length_lr _ _ _ _ Hversions).
    by apply lookup_lt_Some in Hto. }
  exists version. split; [done|].
  by apply (Forall3_lookup_lmr _ _ _ _ _ _ _ _ Hversions Hto He' Hversion).
Qed.

(** C1: for every payload that is a batch send, whose [data["to"]] holds
    recipients with an address, [serialize_data] removes the top-level [to]
    key and sets [data["messageVersions"]] to a list with one entry per
    original recipient, in order; the entry of a recipient holds [to], the
    list of that recipient alone, and [params], the [merge_data] entry of the
    recipient's address, or [None] when there is none. It holds no other key,
    but the headers that carry the recipient's own metadata when there is an
    override for the address. *)
Theorem serialize_data_bursts_to (p : Payload) (tos : list value) :
  is_batch p = true ->
  default (VList []) (data p !! "to") = VList tos ->
  (∀ to, to ∈ tos -> ∃ e, has_email to e) ->
  ∃ (o : outcome string) (p' : Payload) (versions : list value),
    serialize_data serialize_json p = (o, p')
    ∧ data p' !! "to" = None
    ∧ data p' !! "messageVersions" = Some (VList versions)
    ∧ length versions = length tos
    ∧ ∀ (i : nat) (to : value) (e : string),
        tos !! i = Some to ->
        has_email to e ->
        ∃ entry : gmap string value,
          versions !! i = Some (VDict entry)
          ∧ entry !! "to" = Some (VList [to])
          ∧ entry !! "params" = Some (default VNone (merge_data p !! e))
          ∧ (∀ k : string,
               k ≠ "to" -> k ≠ "params" -> k ≠ "headers" ->
               entry !! k = None)
          ∧ (merge_metadata p !! e = None -> entry !! "headers" = None).
Proof.
  intros Hbatch Hto Hall.
  destruct (has_emails_exist tos Hall) as [emails Hemails].
  destruct (serialize_data_batch p tos emails Hbatch Hto Hemails)
    as (o & p' & versions & Hrun & Hno_to & Hmv & Htouched & _).
  exists o, p', versions. do 3 (split; [done|]).
  split; [symmetry; by eapply Forall3_length_lr|].
  intros i to e Hi He.
  destruct (version_at tos emails versions i to e Hemails Htouched Hi He)
    as (version & Hversion & [->|(override & s & Hoverride & _ & ->)]).
  - exists (base_version (merge_data p) to e). unfold base_version.
    split; [done|]. split; [by simplify_map_eq|]. split; [by simplify_map_eq|].
    split; [intros; by simplify_map_eq|]. intros; by simplify_map_eq.
  - eexists. split; [done|]. unfold base_version.
    split; [by simplify_map_eq|]. split; [by simplify_map_eq|].
    split; [intros; by simplify_map_eq|]. intros; congruence.
Qed.

(** C6: for every batch payload (whose recipients have an address, and whose
    overrides have a JSON form), [serialize_data] gives exactly the entries
    of [messageVersions] whose recipient's address is in [merge_metadata] the
    headers [{"X-Mailin-custom": s}], where s is the JSON serialization of
    the global metadata overridden key by key by that recipient's entry; the
    entry of a recipient without an override gets no headers, and the
    top-level headers are those the payload had (dropped when empty). *)
Theorem serialize_data_merges_metadata (p : Payload) (tos : list value) :
  is_batch p = true ->
  default (VList []) (data p !! "to") = VList tos ->
  (∀ to, to ∈ tos -> ∃ e, has_email to e) ->
  (∀ (to : value) (e : string) (override : gmap string value),
     to ∈ tos -> has_email to e -> merge_metadata p !! e = Some override ->
     ∃ s, serialize_json (VDict (override ∪ metadata p)) = Returns s) ->
  ∃ (o : outcome string) (p' : Payload) (versions : list value),
    serialize_data serialize_json p = (o, p')
    ∧ data p' !! "messageVersions" = Some (VList versions)
    ∧ length versions = length tos
    ∧ (∀ (i : nat) (to : value) (e : string),
         tos !! i = Some to ->
         has_email to e ->
         ∃ entry : gmap string value,
           versions !! i = Some (VDict entry)
           ∧ match merge_metadata p !! e with
             | Some override =>
                 ∃ (merged : gmap string value) (s : string),
                   (∀ k : string,
                      merged !! k
                      = match override !! k with
                        | Some x => Some x
                        | None => metadata p !! k
                        end)
                   ∧ serialize_json (VDict merged) = Returns s
                   ∧ entry !! "headers"
                     = Some (VDict {[ "X-Mailin-custom" := VStr s ]})
             | None => entry !! "headers" = None
             end)
    ∧ data p' !! "headers"
      = (headers ← data p !! "headers";
         if truthy headers then Some headers else None).
Proof.
  intros Hbatch Hto Hall Hserialize.
  destruct (has_emails_exist tos Hall) as [emails Hemails].
  destruct (serialize_data_batch p tos emails Hbatch Hto Hemails)
    as (o & p' & versions & Hrun & _ & Hmv & Htouched & Hfinished).
  destruct Hfinished as [Hfinished Hheaders].
  { intros e override He Hoverride.
    apply list_elem_of_lookup in He as [i Hi].
    destruct (Forall2_lookup_r _ _ _ _ _ Hemails Hi) as (to & Hto' & Hemail).
    apply (Hserialize to e override); [|done..].
    apply list_elem_of_lookup. eauto. }
  exists o, p', versions. do 2 (split; [done|]).
  split; [symmetry; by eapply Forall3_length_lr|].
  split; [|done].
  intros i to e Hi He.
  destruct (version_at tos emails versions i to e Hemails Hfinished Hi He)
    as (version & Hversion & Hfin).
  unfold finished in Hfin.
  destruct (merge_metadata p !! e) as [override|].
  - destruct Hfin as (s & Hs & ->). eexists. split; [done|].
    exists (override ∪ metadata p), s. split; [|split; [done|]].
    + intros k. rewrite lookup_union.
      by destruct (override !! k), (metadata p !! k).
    + by rewrite lookup_insert_eq.
  - subst version. eexists. split; [done|].
    unfold base_version. by simplify_map_eq.
Qed.

End Serialization.

(** [set_metadata] writes the serialized global metadata in the top-level
    headers, under a name that is matched whatever its case, and keeps the
    mapping for [serialize_data]. *)
Lemma set_metadata_run (serialize_json : value -> outcome string)
    (m : gmap string value) (s : string) (h : gmap string (string * value))
    (p : Payload) :
  serialize_json (VDict m) = Returns s ->
  data p !! "headers" = Some (VHeaders h) ->
  set_metadata serialize_json m p
  = (Returns tt,
     with_metadata m
       (with_data
          (insert "headers"
             (VHeaders (<["x-mailin-custom" := ("X-Mailin-custom", VStr s)]> h)))
          p)).
Proof.
  intros Hs Hheaders. unfold set_metadata.
  rewrite run_bind. unfold lift at 1. rewrite Hs.
  rewrite run_bind. unfold data_get at 1. rewrite run_bind. unfold gets at 1.
  rewrite Hheaders. reflexivity.
Qed.

(** ** A batch send, end to end *)

Example batch_payload_to :
  data batch_payload !! "to"
  = Some (VList [email_object alice; email_object bob]).
Proof. vm_compute. reflexivity. Qed.

Example serialized_batch_versions :
  data serialized_batch.2 !! "to" = None
  ∧ version_entry serialized_batch.2 0
    = Some (VDict {[ "to" := VList [email_object alice];
                     "params" := VDict {[ "name" := VStr "X" ]};
                     "headers" :=
                       custom_header
                         (sample_body (VDict {[ "order" := VInt 2;
                                                "tag" := VStr "x" ]})) ]})
  ∧ version_entry serialized_batch.2 1
    = Some (VDict {[ "to" := VList [email_object bob]; "params" := VNone ]})
  ∧ version_entry serialized_batch.2 2 = None
  ∧ getitem_str (default VNone (data serialized_batch.2 !! "headers"))
      "x-mailin-custom"
    = Returns (VStr (sample_body (VDict {[ "order" := VInt 1;
                                           "tag" := VStr "x" ]}))).
Proof. vm_compute. auto. Qed.

Lemma batch_recipients_have_email :
  ∀ to, to ∈ [email_object alice; email_object bob] -> ∃ e, has_email to e.
Proof.
  intros to Hin.
  change [email_object alice; email_object bob]
    with (email_object <$> [alice; bob]) in Hin.
  apply list_elem_of_fmap in Hin as (email & -> & _).
  eexists. apply email_object_has_email.
Qed.

Lemma serialize_data_bursts_to_witness :
  ∃ (o : outcome string) (p' : Payload) (versions : list value),
    serialize_data sample_serialize_json batch_payload = (o, p')
    ∧ data p' !! "to" = None
    ∧ data p' !! "messageVersions" = Some (VList versions)
    ∧ length versions = length [email_object alice; email_object bob]
    ∧ ∀ (i : nat) (to : value) (e : string),
        [email_object alice; email_object bob] !! i = Some to ->
        has_email to e ->
        ∃ entry : gmap string value,
          versions !! i = Some (VDict entry)
          ∧ entry !! "to" = Some (VList [to])
          ∧ entry !! "params"
            = Some (default VNone (merge_data batch_payload !! e))
          ∧ (∀ k : string,
               k ≠ "to" -> k ≠ "params" -> k ≠ "headers" ->
               entry !! k = None)
          ∧ (merge_metadata batch_payload !! e = None ->
             entry !! "headers" = None).
Proof.
  apply (serialize_data_bursts_to sample_serialize_json batch_payload
           [email_object alice; email_object bob]).
  - reflexivity.
  - vm_compute. reflexivity.
  - exact batch_recipients_have_email.
Defined.

Lemma serialize_data_merges_metadata_witness :
  ∃ (o : outcome string) (p' : Payload) (versions : list value),
    serialize_data sample_serialize_json batch_payload = (o, p')
    ∧ data p' !! "messageVersions" = Some (VList versions)
    ∧ length versions = length [email_object alice; email_object bob]
    ∧ (∀ (i : nat) (to : value) (e : string),
         [email_object alice; email_object bob] !! i = Some to ->
         has_email to e ->
         ∃ entry : gmap string value,
           versions !! i = Some (VDict entry)
           ∧ match merge_metadata batch_payload !! e with
             | Some override =>
                 ∃ (merged : gmap string value) (s : string),
                   (∀ k : string,
                      merged !! k
                      = match override !! k with
                        | Some x => Some x
                        | None => metadata batch_payload !! k
                        end)
                   ∧ sample_serialize_json (VDict merged) = Returns s
                   ∧ entry !! "headers"
                     = Some (VDict {[ "X-Mailin-custom" := VStr s ]})
             | None => entry !! "headers" = None
             end)
    ∧ data p' !! "headers"
      = (headers ← data batch_payload !! "headers";
         if truthy headers then Some headers else None).
Proof.
  apply (serialize_data_merges_metadata sample_serialize_json batch_payload
           [email_object alice; email_object bob]).
  - reflexivity.
  - vm_compute. reflexivity.
  - exact batch_recipients_have_email.
  - intros to e override Hin He Hoverride.
    change (merge_metadata batch_payload)
      with ({[ "alice@example.com" := {[ "order" := VInt 2 ]} ]}
              : gmap string (gmap string value)) in Hoverride.
    apply lookup_singleton_Some in Hoverride as [_ <-].
    eexists. vm_compute. reflexivity.
Defined.

(** * Further properties *)

(** ** The backend's settings *)

Lemma endswith_refl (s : string) : endswith s s = true.
Proof. destruct s; cbn [endswith]; by rewrite String.eqb_refl. Qed.

Lemma endswith_append (s suffix : string) :
  endswith (s +:+ suffix) suffix = true.
Proof.
  induction s as [|c s IH].
  - apply endswith_refl.
  - change (String c s +:+ suffix) with (String c (s +:+ suffix)).
    cbn [endswith]. rewrite IH. by destruct (String.eqb _ _).
Qed.

(** X1: when the backend is set up, the [api_url] it keeps ends with a
    slash, whatever URL the settings give: a URL that ends with one is kept
    as it is, any other gets one slash appended, so a URL the backend kept
    is kept unchanged when configured again; and the set-up fails only with
    the error of a setting that cannot be read. *)
Theorem api_url_ends_with_slash
    (get_anymail_setting : string -> option string -> outcome string)
    (ignore_unsupported : bool) :
  match EmailBackend_init get_anymail_setting ignore_unsupported with
  | Returns b =>
      endswith (api_url b) "/" = true
      ∧ get_anymail_setting "api_key" None = Returns (api_key b)
      ∧ (∃ url,
           get_anymail_setting "api_url" (Some default_api_url) = Returns url
           ∧ api_url b = if endswith url "/" then url else url +:+ "/")
      ∧ (if endswith (api_url b) "/" then api_url b else api_url b +:+ "/")
        = api_url b
  | Raises e =>
      get_anymail_setting "api_key" None = Raises e
      ∨ get_anymail_setting "api_url" (Some default_api_url) = Raises e
  end.
Proof.
  unfold EmailBackend_init.
  destruct (get_anymail_setting "api_key" None) as [key|e]; simpl; [|by left].
  destruct (get_anymail_setting "api_url" (Some default_api_url)) as [url|e];
    simpl; [|by right].
  assert (endswith (if endswith url "/" then url else url +:+ "/") "/" = true)
    as Hnorm.
  { destruct (endswith url "/") eqn:H; [done|]. apply endswith_append. }
  split; [done|]. split; [done|]. split; [by exists url|]. by rewrite Hnorm.
Qed.

Example backend_default_url :
  (b ← EmailBackend_init (sample_settings [("api_key", "secret")]) false;
   mret (api_url b))
  = Returns default_api_url.
Proof. vm_compute. reflexivity. Qed.

Example backend_url_gets_slash :
  (b ← EmailBackend_init
         (sample_settings [("api_key", "secret");
                           ("api_url", "https://api.example.com/v3")])
         false;
   mret (api_url b))
  = Returns "https://api.example.com/v3/".
Proof. vm_compute. reflexivity. Qed.

Example backend_without_key :
  EmailBackend_init (sample_settings []) false = Raises AttributeError.
Proof. vm_compute. reflexivity. Qed.

(** X2: the [api-key] and [Content-Type] headers the payload hands on are the
    backend's key and [application/json], also when the caller passed headers
    of these names; every other header of the caller is handed on as it
    is. *)
Theorem http_headers_authenticated
    (kwargs_headers : option (gmap string string)) (b : EmailBackend) :
  let http_headers := payload_http_headers kwargs_headers b in
  http_headers !! "api-key" = Some (api_key b)
  ∧ http_headers !! "Content-Type" = Some "application/json"
  ∧ ∀ k, k ≠ "api-key" -> k ≠ "Content-Type" ->
      http_headers !! k = (default ∅ kwargs_headers) !! k.
Proof.
  cbv zeta. unfold payload_http_headers. split; [|split].
  - by rewrite lookup_insert_ne, lookup_insert_eq.
  - by rewrite lookup_insert_eq.
  - intros k Hk1 Hk2. by rewrite !lookup_insert_ne.
Qed.

(** ** Addresses *)

Lemma email_object_lookup_email (email : EmailAddress) :
  getitem_str (email_object email) "email" = Returns (VStr (addr_spec email)).
Proof. apply email_object_has_email. Qed.

Lemma email_object_lookup_name (email : EmailAddress) :
  getitem_str (email_object email) "name"
  = if String.eqb (display_name email) "" then Raises KeyError
    else Returns (VStr (display_name email)).
Proof.
  unfold email_object. destruct (String.eqb (display_name email) ""); reflexivity.
Qed.

(** X3: [email_object] loses nothing: it holds the address under [email],
    the display name under [name] exactly when there is one, no other key,
    and two addresses with the same object are the same address. *)
Theorem email_object_faithful (email : EmailAddress) :
  getitem_str (email_object email) "email" = Returns (VStr (addr_spec email))
  ∧ getitem_str (email_object email) "name"
    = (if String.eqb (display_name email) "" then Raises KeyError
       else Returns (VStr (display_name email)))
  ∧ (∀ k, k ≠ "email" -> k ≠ "name" ->
       getitem_str (email_object email) k = Raises KeyError)
  ∧ ∀ other, email_object other = email_object email -> other = email.
Proof.
  split; [apply email_object_lookup_email|].
  split; [apply email_object_lookup_name|]. split.
  - intros k Hk1 Hk2. unfold email_object.
    destruct (String.eqb (display_name email) ""); simpl;
      by rewrite ?lookup_insert_ne, lookup_singleton_ne.
  - intros other Heq.
    pose proof (email_object_lookup_email other) as Haddr.
    pose proof (email_object_lookup_name other) as Hname.
    rewrite Heq, email_object_lookup_email in Haddr.
    rewrite Heq, email_object_lookup_name in Hname.
    destruct email as [n a], other as [n' a']. simpl in *.
    injection Haddr as ->.
    destruct (String.eqb_spec n ""), (String.eqb_spec n' ""); simplify_eq; done.
Qed.

(** ** Reply-to *)

(** X4: [set_reply_to] stores the first address only. With no address it
    changes nothing; with one it stores it without a signal; with more it
    signals unsupported-feature once, and then stores the first address if
    the signal is ignored, and raises with [data] unchanged if not. *)
Theorem set_reply_to_first_only (emails : list EmailAddress) (p : Payload) :
  ∃ (o : outcome unit) (p' : Payload),
    set_reply_to emails p = (o, p')
    ∧ match emails with
      | [] => o = Returns tt ∧ p' = p
      | [only] =>
          o = Returns tt
          ∧ data p' = <["replyTo" := email_object only]> (data p)
          ∧ signalled p' = signalled p
      | first :: _ :: _ =>
          signalled p' = signalled p ++ ["multiple reply_to addresses"]
          ∧ if ignore_unsupported_features (backend p)
            then o = Returns tt
                 ∧ data p' = <["replyTo" := email_object first]> (data p)
            else o = Raises (AnymailUnsupportedFeature
                               "multiple reply_to addresses")
                 ∧ data p' = data p
      end.
Proof.
  destruct emails as [|first [|second rest]].
  - eexists _, _. split; [reflexivity|]. done.
  - eexists _, _. split; [reflexivity|]. done.
  - unfold set_reply_to.
    rewrite bool_decide_eq_true_2 by (simpl; lia).
    rewrite run_bind, unsupported_feature_run.
    destruct (ignore_unsupported_features (backend p));
      eexists _, _; (split; [reflexivity|]); done.
Qed.

(** ** Bodies and subject *)

Lemma last_nonempty_snoc (bodies : list string) (body : string) :
  last_nonempty (bodies ++ [body])
  = if String.eqb body "" then last_nonempty bodies else Some body.
Proof.
  unfold last_nonempty. rewrite filter_app, filter_cons, filter_nil.
  destruct (String.eqb_spec body "") as [->|Hne].
  - rewrite decide_False by (intros H; by apply H). by rewrite app_nil_r.
  - rewrite decide_True by done. by rewrite last_snoc.
Qed.

Lemma call_each_snoc {A} (method : A -> M unit) (args : list A) (x : A)
    (p p' : Payload) :
  call_each method args p = (Returns tt, p') ->
  call_each method (args ++ [x]) p
  = (let (o, p'') := method x p' in (o, p'')).
Proof.
  revert p. induction args as [|y args IH]; intros p Hrun; simpl in *.
  - injection Hrun as <-. rewrite run_bind.
    destruct (method x p) as [[[]|e] p'']; reflexivity.
  - rewrite run_bind in *.
    destruct (method y p) as [[[]|e] p1]; [|discriminate].
    by apply IH.
Qed.

(** What a run of calls of a setter that stores a non-empty string under
    [key], and skips an empty one, leaves behind. *)
Lemma call_each_nonempty_setter (key : string) (setter : string -> M unit)
    (bodies : list string) (p : Payload) :
  (∀ body q,
     setter body q
     = (Returns tt,
        if String.eqb body "" then q
        else with_data (insert key (VStr body)) q)) ->
  call_each setter bodies p
  = (Returns tt,
     match last_nonempty bodies with
     | Some body => with_data (insert key (VStr body)) p
     | None => p
     end).
Proof.
  intros Hsetter. induction bodies as [|body bodies IH] using rev_ind.
  - reflexivity.
  - rewrite (call_each_snoc _ _ _ _ _ IH), Hsetter, last_nonempty_snoc.
    destruct (String.eqb body ""); [reflexivity|].
    destruct (last_nonempty bodies); [|reflexivity].
    by rewrite with_data_insert_insert.
Qed.

(** X5: unlike the HTML body, the text body and the subject can be set any
    number of times: no call signals or raises, an empty value is skipped,
    and what stays is the last value that is not empty. *)
Theorem text_body_and_subject_last_wins (values : list string) (p : Payload) :
  call_each set_text_body values p
  = (Returns tt,
     match last_nonempty values with
     | Some body => with_data (insert "textContent" (VStr body)) p
     | None => p
     end)
  ∧ call_each set_subject values p
    = (Returns tt,
       match last_nonempty values with
       | Some subject => with_data (insert "subject" (VStr subject)) p
       | None => p
       end).
Proof.
  split; apply call_each_nonempty_setter; intros body q.
  - unfold set_text_body. by destruct (String.eqb body "").
  - unfold set_subject. by destruct (String.eqb body "").
Qed.

(** ** Late binding *)

(** X6: the merge data and the merge metadata are only read by
    [serialize_data], so for a recipient type that [set_recipients] accepts
    it does not matter whether they are set before or after the recipients:
    both orders return and leave the same payload. *)
Theorem merge_setters_commute_with_recipients (recipient_type : string)
    (emails : list EmailAddress) (md : gmap string value)
    (mm : gmap string (gmap string value)) (p : Payload) :
  recipient_type ∈ ["to"; "cc"; "bcc"] ->
  (set_merge_data md;; set_recipients recipient_type emails) p
  = (set_recipients recipient_type emails;; set_merge_data md) p
  ∧ (set_merge_metadata mm;; set_recipients recipient_type emails) p
    = (set_recipients recipient_type emails;; set_merge_metadata mm) p
  ∧ ∃ p', (set_recipients recipient_type emails;; set_merge_data md) p
          = (Returns tt, p').
Proof.
  intros Hin. unfold set_recipients, set_merge_data, set_merge_metadata.
  rewrite bool_decide_eq_true_2 by done.
  destruct emails; run_method; [eauto|].
  destruct (String.eqb recipient_type "to"); eauto.
Qed.

Lemma merge_setters_commute_with_recipients_witness :
  (set_merge_data {[ "alice@example.com" := VDict {[ "name" := VStr "X" ]} ]};;
   set_recipients "to" [alice; bob]) (init_payload raising_backend true)
  = (set_recipients "to" [alice; bob];;
     set_merge_data {[ "alice@example.com" := VDict {[ "name" := VStr "X" ]} ]})
      (init_payload raising_backend true)
  ∧ (set_merge_metadata {[ "alice@example.com" := {[ "order" := VInt 2 ]} ]};;
     set_recipients "to" [alice; bob]) (init_payload raising_backend true)
    = (set_recipients "to" [alice; bob];;
       set_merge_metadata {[ "alice@example.com" := {[ "order" := VInt 2 ]} ]})
        (init_payload raising_backend true)
  ∧ ∃ p',
      (set_recipients "to" [alice; bob];;
       set_merge_data
         {[ "alice@example.com" := VDict {[ "name" := VStr "X" ]} ]})
        (init_payload raising_backend true)
      = (Returns tt, p').
Proof.
  apply (merge_setters_commute_with_recipients "to" [alice; bob]).
  constructor.
Defined.

(** ** Recipients, over any run of calls *)

Lemma set_recipients_consistent (recipient_type : string)
    (emails : list EmailAddress) (p : Payload) :
  recipients_consistent p ->
  recipients_consistent (set_recipients recipient_type emails p).2.
Proof.
  intros [Hsub Hto].
  destruct (decide (recipient_type ∈ ["to"; "cc"; "bcc"])) as [Hin|Hout].
  2:{ by rewrite set_recipients_other_type. }
  destruct (set_recipients_spec recipient_type emails p Hin)
    as (p' & -> & Hall & Hto' & Hdata & _).
  simpl. unfold recipients_consistent. rewrite Hall, Hto', Hdata.
  destruct emails as [|e emails].
  - rewrite bool_decide_eq_false_2 by (intros [_ ?]; done).
    rewrite bool_decide_eq_true_2 by done. rewrite app_nil_r. done.
  - rewrite (bool_decide_eq_false_2 (e :: emails = [])) by done.
    destruct (decide (recipient_type = "to")) as [->|Hne].
    + rewrite bool_decide_eq_true_2 by done. rewrite lookup_insert_eq.
      split; [|done]. intros r Hr. set_solver.
    + rewrite bool_decide_eq_false_2 by (intros [? _]; done).
      rewrite lookup_insert_ne by done.
      split; [|done]. intros r Hr. set_solver.
Qed.

Lemma call_each_set_recipients_consistent
    (calls : list (string * list EmailAddress)) (p : Payload) :
  recipients_consistent p ->
  recipients_consistent
    (call_each (fun call => set_recipients call.1 call.2) calls p).2.
Proof.
  revert p. induction calls as [|[t l] calls IH]; intros p Hp; [done|].
  simpl. rewrite run_bind.
  pose proof (set_recipients_consistent t l p Hp) as H1.
  destruct (set_recipients t l p) as [[[]|e] p1]; simpl in *.
  - by apply IH.
  - done.
Qed.

Lemma call_each_set_recipients_all
    (calls : list (string * list EmailAddress)) (p : Payload) :
  Forall (fun call => call.1 ∈ ["to"; "cc"; "bcc"]) calls ->
  ∃ p',
    call_each (fun call => set_recipients call.1 call.2) calls p
    = (Returns tt, p')
    ∧ all_recipients p' = all_recipients p ++ mjoin calls.*2.
Proof.
  revert p. induction calls as [|[t l] calls IH]; intros p Hvalid.
  - exists p. simpl. by rewrite app_nil_r.
  - apply Forall_cons_1 in Hvalid as [Ht Hvalid]. simpl in Ht.
    destruct (set_recipients_spec t l p Ht) as (p1 & Hrun & Hall & _).
    destruct (IH p1 Hvalid) as (p' & Hrun' & Hall').
    exists p'. simpl. rewrite run_bind, Hrun. split; [done|].
    rewrite Hall', Hall. by rewrite <- app_assoc.
Qed.

(** X7: whatever calls of [set_recipients] a new payload receives (any
    types, any lists, in any order and number), afterwards every recipient of
    [to_recipients] is in [all_recipients], and [data["to"]] holds the
    objects of [to_recipients] in the same order (no key when there is
    none); when every type is to, cc or bcc, all calls return and
    [all_recipients] is the lists of the calls, one after the other. *)
Theorem set_recipients_invariant (calls : list (string * list EmailAddress))
    (b : EmailBackend) (batch : bool) :
  let run :=
    call_each (fun call => set_recipients call.1 call.2) calls
      (init_payload b batch) in
  recipients_consistent run.2
  ∧ (to_recipients run.2 = [] <-> data run.2 !! "to" = None)
  ∧ (Forall (fun call => call.1 ∈ ["to"; "cc"; "bcc"]) calls ->
     run.1 = Returns tt ∧ all_recipients run.2 = mjoin calls.*2).
Proof.
  cbv zeta.
  assert (∀ p, (recipients_consistent p
                ∧ (to_recipients p = [] <-> data p !! "to" = None)) ->
               ∀ t l,
                 let p' := (set_recipients t l p).2 in
                 to_recipients p' = [] <-> data p' !! "to" = None) as Hstep.
  { intros p [_ Hiff] t l. cbv zeta.
    destruct (decide (t ∈ ["to"; "cc"; "bcc"])) as [Hin|Hout].
    2:{ by rewrite set_recipients_other_type. }
    destruct (set_recipients_spec t l p Hin)
      as (p' & -> & _ & Hto' & Hdata & _).
    simpl. rewrite Hto', Hdata. destruct l as [|e l].
    - rewrite bool_decide_eq_false_2 by (intros [_ ?]; done).
      by rewrite bool_decide_eq_true_2.
    - rewrite (bool_decide_eq_false_2 (e :: l = [])) by done.
      destruct (decide (t = "to")) as [->|Hne].
      + rewrite bool_decide_eq_true_2 by done. rewrite lookup_insert_eq.
        split; discriminate.
      + rewrite bool_decide_eq_false_2 by (intros [? _]; done).
        by rewrite lookup_insert_ne. }
  split; [|split].
  - apply call_each_set_recipients_consistent. split; [set_solver|done].
  - assert (∀ p, recipients_consistent p
                 ∧ (to_recipients p = [] <-> data p !! "to" = None) ->
                 let p' := (call_each (fun call => set_recipients call.1 call.2)
                              calls p).2 in
                 to_recipients p' = [] <-> data p' !! "to" = None) as Hall.
    { induction calls as [|[t l] calls IH]; intros p Hp; [apply Hp|].
      cbv zeta. simpl. rewrite run_bind.
      pose proof (Hstep p Hp t l) as H1.
      pose proof (set_recipients_consistent t l p (proj1 Hp)) as H2.
      destruct (set_recipients t l p) as [[[]|e] p1]; simpl in *; [|done].
      by apply IH. }
    apply Hall. split; [split; [set_solver|done]|done].
  - intros Hvalid.
    destruct (call_each_set_recipients_all calls (init_payload b batch) Hvalid)
      as (p' & -> & Hall). done.
Qed.

(** ** More on the vendor's response *)

(** What a key holds after the loop was stored by the loop or was there. *)
Lemma store_each_lookup_inv {A V} (key : A -> string) (item : A -> V)
    (m : gmap string V) (l : list A) (k : string) (v : V) :
  store_each key item m l !! k = Some v ->
  m !! k = Some v ∨ ∃ x, x ∈ l ∧ key x = k ∧ v = item x.
Proof.
  induction l as [|x l IH] using rev_ind; [by left|].
  rewrite store_each_snoc. intros Hk.
  destruct (decide (key x = k)) as [<-|Hne].
  - rewrite lookup_insert_eq in Hk. injection Hk as <-.
    right. exists x. set_solver.
  - rewrite lookup_insert_ne in Hk by done.
    destruct (IH Hk) as [?|(y & ? & ? & ?)]; [by left|].
    right. exists y. set_solver.
Qed.

Section ResponseShape.

Variable deserialize_json_response :
  EmailBackend -> Response -> Payload -> Message -> outcome value.

(** Every mapping [parse_recipient_status] returns is the default mapping,
    overwritten for some of the to-recipients. *)
Lemma parse_returns_shape (self : EmailBackend) (response : Response)
    (payload : Payload) (message : Message)
    (m : gmap string AnymailRecipientStatus) :
  parse_recipient_status deserialize_json_response self response payload message
  = Returns m ->
  ∃ (id : value) (pairs : list (EmailAddress * value)),
    m = store_each (fun pair => addr_spec pair.1) (fun pair => queued pair.2)
          (all_with payload (queued id)) pairs
    ∧ ∀ pair, pair ∈ pairs -> pair.1 ∈ to_recipients payload.
Proof.
  intros Hrun.
  destruct (decide (content response = "")) as [Hempty|Hbody].
  { rewrite parse_empty_body in Hrun by done. injection Hrun as <-.
    exists VNone, []. split; [reflexivity|]. set_solver. }
  destruct (deserialize_json_response self response payload message)
    as [parsed|e] eqn:Hparsed.
  2: { rewrite (parse_undecodable _ _ _ _ _ _ Hbody Hparsed) in Hrun.
       discriminate. }
  destruct (has_key parsed "messageId") eqn:Hid.
  { apply has_key_getitem_str in Hid as [id Hid].
    rewrite (parse_single_id _ _ _ _ _ _ _ Hbody Hparsed Hid) in Hrun.
    destruct (hashable id); [|discriminate]. injection Hrun as <-.
    exists id, []. split; [reflexivity|]. set_solver. }
  destruct (has_key parsed "messageIds") eqn:Hids.
  { apply has_key_getitem_str in Hids as [ids Hids].
    rewrite (parse_batch_ids _ _ _ _ _ _ _ Hbody Hparsed Hid Hids) in Hrun.
    destruct (truthy ids).
    - destruct (py_iter ids) as [l|e]; [|discriminate]. simpl in Hrun.
      rewrite store_statuses_run in Hrun.
      destruct (forallb _ _); [|discriminate]. injection Hrun as <-.
      exists VNone, (zip (to_recipients payload) l).
      split; [reflexivity|]. intros [r x] Hin. simpl.
      by apply elem_of_zip_l in Hin.
    - injection Hrun as <-. exists VNone, []. split; [reflexivity|].
      set_solver. }
  rewrite (parse_neither_key _ _ _ _ _ _ Hbody Hparsed Hid Hids) in Hrun.
  discriminate.
Qed.

(** X8: whenever [parse_recipient_status] returns, whatever the response
    held, every recipient of [all_recipients] has a status, every status is
    queued, and every key is the address of a recipient of the payload; when
    the to-recipients are among [all_recipients], as [set_recipients] keeps
    them, the keys are exactly the addresses of [all_recipients]. *)
Theorem parse_reports_queued_recipients (self : EmailBackend)
    (response : Response) (payload : Payload) (message : Message)
    (m : gmap string AnymailRecipientStatus) :
  parse_recipient_status deserialize_json_response self response payload message
  = Returns m ->
  (∀ r, r ∈ all_recipients payload -> is_Some (m !! addr_spec r))
  ∧ (∀ address st,
       m !! address = Some st ->
       status st = "queued"
       ∧ (address ∈ addr_spec <$> all_recipients payload
          ∨ address ∈ addr_spec <$> to_recipients payload))
  ∧ ((∀ r, r ∈ to_recipients payload -> r ∈ all_recipients payload) ->
     dom m = list_to_set (addr_spec <$> all_recipients payload)).
Proof.
  intros Hrun.
  destruct (parse_returns_shape _ _ _ _ _ Hrun) as (id & pairs & -> & Hpairs).
  split; [|split].
  - intros r Hr. apply elem_of_dom. rewrite store_each_dom, all_with_dom.
    apply elem_of_union_l, elem_of_list_to_set, list_elem_of_fmap. eauto.
  - intros address st Hst.
    apply store_each_lookup_inv in Hst as [Hst|(pair & Hin & <- & ->)].
    + assert (address ∈ dom (all_with payload (queued id))) as Hdom
        by (apply elem_of_dom; eauto).
      rewrite all_with_dom in Hdom.
      apply elem_of_list_to_set in Hdom.
      pose proof Hdom as Hdom'.
      apply list_elem_of_fmap in Hdom' as (r & -> & Hr).
      rewrite all_with_lookup in Hst by done. injection Hst as <-.
      split; [reflexivity|by left].
    + split; [reflexivity|]. right.
      apply list_elem_of_fmap. exists pair.1. split; [done|by apply Hpairs].
  - intros Hsub. rewrite store_each_dom, all_with_dom.
    apply set_eq. intros address. rewrite elem_of_union, !elem_of_list_to_set.
    split; [|by left]. intros [?|Hin]; [done|].
    apply list_elem_of_fmap in Hin as (pair & -> & Hin).
    apply list_elem_of_fmap. exists pair.1. split; [done|].
    by apply Hsub, Hpairs.
Qed.

(** X9: a decoded body with a [messageId] that the status constructor takes
    (a scalar) gives that id, with status queued, to every recipient of
    [all_recipients], and the mapping has no other key; nothing else of the
    body is read. A [messageId] that is an array or an object makes the call
    raise the TypeError of the constructor. *)
Theorem message_id_for_every_recipient (self : EmailBackend)
    (response : Response) (payload : Payload) (message : Message)
    (parsed id : value) :
  content response ≠ "" ->
  deserialize_json_response self response payload message = Returns parsed ->
  getitem_str parsed "messageId" = Returns id ->
  (hashable id = true ->
   ∃ m : gmap string AnymailRecipientStatus,
     parse_recipient_status deserialize_json_response self response payload
       message = Returns m
     ∧ ∀ address,
         m !! address
         = if bool_decide (address ∈ addr_spec <$> all_recipients payload)
           then Some {| message_id := id; status := "queued" |}
           else None)
  ∧ (hashable id = false ->
     parse_recipient_status deserialize_json_response self response payload
       message = Raises TypeError).
Proof.
  intros Hbody Hparsed Hid.
  rewrite (parse_single_id _ _ _ _ _ _ _ Hbody Hparsed Hid).
  split; intros ->; [|reflexivity].
  exists (all_with payload (queued id)).
  split; [reflexivity|]. intros address.
  case_bool_decide as Hin.
  - apply list_elem_of_fmap in Hin as (r & -> & Hr). by apply all_with_lookup.
  - by apply all_with_lookup_None.
Qed.

(** X10: a [messageIds] that is false in a condition (null, zero, false, an
    empty string, array or object) is treated as no ids at all: the result
    is the one an empty body gives. *)
Theorem falsy_message_ids_as_empty_body (self : EmailBackend)
    (response : Response) (payload : Payload) (message : Message)
    (parsed ids : value) :
  content response ≠ "" ->
  deserialize_json_response self response payload message = Returns parsed ->
  has_key parsed "messageId" = false ->
  getitem_str parsed "messageIds" = Returns ids ->
  truthy ids = false ->
  parse_recipient_status deserialize_json_response self response payload message
  = parse_recipient_status deserialize_json_response self {| content := "" |}
      payload message
  ∧ parse_recipient_status deserialize_json_response self response payload
      message
    = Returns (all_with payload (queued VNone)).
Proof.
  intros Hbody Hparsed Hid Hids Hfalsy.
  rewrite (parse_batch_ids _ _ _ _ _ _ _ Hbody Hparsed Hid Hids), Hfalsy.
  by rewrite parse_empty_body.
Qed.

(** X11: a [messageIds] that is true in a condition but cannot be iterated
    (a non-zero number, true) makes [parse_recipient_status] raise the
    TypeError of the iteration, which is not the API error of a malformed
    response. *)
Theorem uniterable_message_ids_raise (self : EmailBackend)
    (response : Response) (payload : Payload) (message : Message)
    (parsed ids : value) (e : exn) :
  content response ≠ "" ->
  deserialize_json_response self response payload message = Returns parsed ->
  has_key parsed "messageId" = false ->
  getitem_str parsed "messageIds" = Returns ids ->
  truthy ids = true ->
  py_iter ids = Raises e ->
  parse_recipient_status deserialize_json_response self response payload message
  = Raises TypeError
  ∧ e = TypeError
  ∧ is_api_error e = false.
Proof.
  intros Hbody Hparsed Hid Hids Htruthy Hiter.
  rewrite (parse_batch_ids _ _ _ _ _ _ _ Hbody Hparsed Hid Hids), Htruthy.
  rewrite Hiter.
  destruct ids; simpl in Hiter; try discriminate; injection Hiter as <-; done.
Qed.

End ResponseShape.

(** ** Extra headers and metadata *)

Lemma items_set_fresh (k : string) (x : value) (items : list (string * value)) :
  k ∉ items.*1 -> items_set k x items = items ++ [(k, x)].
Proof.
  induction items as [|[k' x'] items IH]; intros Hk; [reflexivity|].
  simpl. destruct (String.eqb_spec k k') as [->|Hne]; [set_solver|].
  rewrite IH by set_solver. reflexivity.
Qed.

Lemma getitem_str_headers (h : gmap string (string * value)) (n k : string)
    (x : value) :
  h !! lower n = Some (k, x) -> getitem_str (VHeaders h) n = Returns x.
Proof. intros H. simpl. by rewrite H. Qed.

Lemma getitem_str_headers_same (h h' : gmap string (string * value))
    (n : string) :
  h' !! lower n = h !! lower n ->
  getitem_str (VHeaders h') n = getitem_str (VHeaders h) n.
Proof. intros H. simpl. by rewrite H. Qed.

Section ExtraHeadersFacts.

Variable is_basic_numeric : value -> bool.
Variable py_str : value -> string.

Lemma stringified_items_distinct (headers : list (string * value)) :
  NoDup headers.*1 ->
  stringified_items is_basic_numeric py_str headers
  = (fun kv => (kv.1, stringify is_basic_numeric py_str kv.2)) <$> headers.
Proof.
  unfold stringified_items. intros Hnodup.
  induction headers as [|[k v] headers IH] using rev_ind; [reflexivity|].
  rewrite fmap_app in Hnodup. apply NoDup_app in Hnodup as (Hhead & Hk & _).
  rewrite foldl_app, fmap_app. simpl. rewrite IH by done.
  apply items_set_fresh. rewrite <- list_fmap_compose. simpl.
  intros Hin. apply (Hk k); [exact Hin|set_solver].
Qed.

(** X12: on the case-insensitive headers a payload starts with,
    [set_extra_headers], given headers whose names are written in ASCII and
    differ by more than case, returns, and afterwards a name written in
    ASCII reads, in any case, the value given for it, as a string if it was
    a basic number and as it was if not; a name that was not given reads
    what it read before. *)
Theorem set_extra_headers_reads_back (headers : list (string * value))
    (h : gmap string (string * value)) (p : Payload) :
  data p !! "headers" = Some (VHeaders h) ->
  Forall (fun k => is_ascii k = true) headers.*1 ->
  NoDup (lower <$> headers.*1) ->
  ∃ h' : gmap string (string * value),
    set_extra_headers is_basic_numeric py_str headers p
    = (Returns tt, with_data (insert "headers" (VHeaders h')) p)
    ∧ (∀ (k : string) (v : value) (n : string),
         (k, v) ∈ headers ->
         is_ascii n = true ->
         lower n = lower k ->
         getitem_str (VHeaders h') n
         = Returns (if is_basic_numeric v then VStr (py_str v) else v))
    ∧ (∀ n : string,
         is_ascii n = true ->
         lower n ∉ lower <$> headers.*1 ->
         getitem_str (VHeaders h') n = getitem_str (VHeaders h) n).
Proof.
  intros Hheaders _ Hnodup.
  pose proof (NoDup_fmap_1 lower _ Hnodup) as Hexact.
  set (stored kv := (kv.1, stringify is_basic_numeric py_str kv.2)
                    : string * value).
  exists (store_each (fun kx : string * value => lower kx.1)
            (fun kx => (kx.1, kx.2)) h (stored <$> headers)).
  split; [|split].
  - unfold set_extra_headers. rewrite run_bind. unfold data_get at 1.
    rewrite run_bind. unfold gets at 1. rewrite Hheaders.
    rewrite (stringified_items_distinct _ Hexact). reflexivity.
  - intros k v n Hin _ Hn.
    apply list_elem_of_split in Hin as (before & after & ->).
    rewrite fmap_app, fmap_cons. apply (getitem_str_headers _ _ k).
    rewrite Hn.
    apply (store_each_last (fun kx : string * value => lower kx.1)
             (fun kx => (kx.1, kx.2)) h (stored <$> before)
             (stored <$> after) (stored (k, v))).
    intros y Hy. apply list_elem_of_fmap in Hy as ([k' v'] & -> & Hy).
    simpl. intros Heq.
    rewrite !fmap_app, !fmap_cons in Hnodup.
    apply NoDup_app in Hnodup as (_ & _ & Hnodup).
    apply NoDup_cons in Hnodup as [Hnot _]. apply Hnot. simpl.
    rewrite <- Heq. apply list_elem_of_fmap. exists k'. split; [done|].
    apply list_elem_of_fmap. by exists (k', v').
  - intros n _ Hn. apply getitem_str_headers_same.
    apply store_each_untouched.
    intros y Hy. apply list_elem_of_fmap in Hy as ([k' v'] & -> & Hy).
    simpl. intros Heq. apply Hn. rewrite <- Heq.
    apply list_elem_of_fmap. exists k'. split; [done|].
    apply list_elem_of_fmap. by exists (k', v').
Qed.

End ExtraHeadersFacts.

Section HeaderSetters.

Variable is_basic_numeric : value -> bool.
Variable py_str : value -> string.
Variable serialize_json : value -> outcome string.

(** X13: [set_metadata] and [set_extra_headers] change the payload only when
    they return: a call that raises leaves it as it was. Without a [headers]
    key in [data] (as after [serialize_data] dropped empty headers), both
    raise: [set_extra_headers] a KeyError, and so does [set_metadata] once
    the metadata is serialized, leaving [metadata] unset. *)
Theorem header_setters_all_or_nothing (m : gmap string value)
    (headers : list (string * value)) (p : Payload) :
  (∀ e p', set_metadata serialize_json m p = (Raises e, p') -> p' = p)
  ∧ (∀ e p',
       set_extra_headers is_basic_numeric py_str headers p = (Raises e, p') ->
       p' = p)
  ∧ (data p !! "headers" = None ->
     set_extra_headers is_basic_numeric py_str headers p = (Raises KeyError, p)
     ∧ ∀ s, serialize_json (VDict m) = Returns s ->
         set_metadata serialize_json m p = (Raises KeyError, p)).
Proof.
  split; [|split].
  - intros e p'. unfold set_metadata.
    rewrite run_bind. unfold lift at 1.
    destruct (serialize_json (VDict m)) as [s|e1]; [|by intros [= _ <-]].
    rewrite run_bind. unfold data_get at 1. rewrite run_bind. unfold gets at 1.
    destruct (data p !! "headers") as [target|]; [|by intros [= _ <-]].
    unfold mret at 1, M_ret at 1. cbv beta iota.
    rewrite run_bind. unfold lift at 1.
    destruct (setitem_str target "X-Mailin-custom" (VStr s)) as [target'|e2];
      [|by intros [= _ <-]].
    discriminate.
  - intros e p'. unfold set_extra_headers.
    rewrite run_bind. unfold data_get at 1. rewrite run_bind. unfold gets at 1.
    destruct (data p !! "headers") as [target|]; [|by intros [= _ <-]].
    unfold mret at 1, M_ret at 1. cbv beta iota.
    rewrite run_bind. unfold lift at 1.
    destruct (headers_update target _) as [target'|e2]; [|by intros [= _ <-]].
    discriminate.
  - intros Hnone. split.
    + unfold set_extra_headers.
      rewrite run_bind. unfold data_get at 1. rewrite run_bind.
      unfold gets at 1. by rewrite Hnone.
    + intros s Hs. unfold set_metadata.
      rewrite run_bind. unfold lift at 1. rewrite Hs.
      rewrite run_bind. unfold data_get at 1. rewrite run_bind.
      unfold gets at 1. by rewrite Hnone.
Qed.

(** X14: on case-insensitive headers, [set_metadata] with metadata that
    serializes to [s] returns; afterwards [metadata] is that mapping, the
    header [X-Mailin-custom] reads [s] in any case of its name (replacing a
    header of that name set before, also in another case), and every other
    header reads what it read before. *)
Theorem set_metadata_header (m : gmap string value) (s : string)
    (h : gmap string (string * value)) (p : Payload) :
  data p !! "headers" = Some (VHeaders h) ->
  serialize_json (VDict m) = Returns s ->
  ∃ (p' : Payload) (h' : gmap string (string * value)),
    set_metadata serialize_json m p = (Returns tt, p')
    ∧ metadata p' = m
    ∧ data p' !! "headers" = Some (VHeaders h')
    ∧ size h' = (if bool_decide ("x-mailin-custom" ∈ dom h) then size h
                 else S (size h))
    ∧ (∀ n, lower n = "x-mailin-custom" ->
         getitem_str (VHeaders h') n = Returns (VStr s))
    ∧ (∀ n, lower n ≠ "x-mailin-custom" ->
         getitem_str (VHeaders h') n = getitem_str (VHeaders h) n).
Proof.
  intros Hheaders Hs. eexists _, _.
  split; [by apply set_metadata_run|]. split; [reflexivity|].
  split; [simpl; by rewrite lookup_insert_eq|]. split; [|split].
  - case_bool_decide as Hin.
    + apply elem_of_dom in Hin as [old Hold].
      rewrite <- (insert_delete_id h "x-mailin-custom" old) at 2 by done.
      rewrite <- insert_delete_eq.
      by rewrite !map_size_insert_None by apply lookup_delete_eq.
    + apply not_elem_of_dom in Hin. by rewrite map_size_insert_None.
  - intros n Hn. apply (getitem_str_headers _ _ "X-Mailin-custom").
    rewrite Hn. apply lookup_insert_eq.
  - intros n Hn. apply getitem_str_headers_same. by rewrite lookup_insert_ne.
Qed.

End HeaderSetters.

(** ** What [serialize_data] touches *)

Lemma same_but_refl (keys : list string) (p : Payload) : same_but keys p p.
Proof. unfold same_but. naive_solver. Qed.

Lemma same_but_trans (keys : list string) (p q r : Payload) :
  same_but keys p q -> same_but keys q r -> same_but keys p r.
Proof.
  unfold same_but. intros (?&?&?&?&?&?&?&?&Hpq) (?&?&?&?&?&?&?&?&Hqr).
  repeat split; try congruence. intros k Hk. by rewrite Hqr, Hpq.
Qed.

Lemma same_but_mono (keys keys' : list string) (p q : Payload) :
  keys ⊆ keys' -> same_but keys p q -> same_but keys' p q.
Proof.
  unfold same_but. intros Hsub (?&?&?&?&?&?&?&?&Hpq).
  repeat split; try done. intros k Hk. apply Hpq. set_solver.
Qed.

Lemma same_but_with_data (keys : list string)
    (f : gmap string value -> gmap string value) (p : Payload) :
  (∀ k, k ∉ keys -> f (data p) !! k = data p !! k) ->
  same_but keys p (with_data f p).
Proof. unfold same_but. simpl. naive_solver. Qed.

Lemma touches_only_bind {A B} (keys : list string) (c : M A) (f : A -> M B) :
  touches_only keys c ->
  (∀ a, touches_only keys (f a)) ->
  touches_only keys (c ≫= f).
Proof.
  intros Hc Hf p p' o. rewrite run_bind.
  destruct (c p) as [[a|e] p1] eqn:Hrun.
  - intros Hrun'. eapply same_but_trans; [by eapply Hc|by eapply Hf].
  - intros [= <- <-]. by eapply Hc.
Qed.

Lemma touches_only_keeps {A} (keys : list string) (c : M A) :
  (∀ p, (c p).2 = p) -> touches_only keys c.
Proof.
  intros Hc p p' o Hrun. specialize (Hc p). rewrite Hrun in Hc. simpl in Hc.
  subst. apply same_but_refl.
Qed.

Lemma touches_only_mret {A} (keys : list string) (a : A) :
  touches_only keys (mret a).
Proof. by apply touches_only_keeps. Qed.

Lemma touches_only_gets {A} (keys : list string) (f : Payload -> A) :
  touches_only keys (gets f).
Proof. by apply touches_only_keeps. Qed.

Lemma touches_only_lift {A} (keys : list string) (o : outcome A) :
  touches_only keys (lift o).
Proof. by apply touches_only_keeps. Qed.

Lemma touches_only_data_set (keys : list string) (k : string) (x : value) :
  k ∈ keys -> touches_only keys (data_set k x).
Proof.
  intros Hk p p' o [= <- <-]. apply same_but_with_data.
  intros k' Hk'. apply lookup_insert_ne. set_solver.
Qed.

Lemma touches_only_data_get (keys : list string) (k : string) :
  touches_only keys (data_get k).
Proof.
  apply touches_only_keeps. intros p. unfold data_get.
  rewrite run_bind. unfold gets at 1. by destruct (data p !! k).
Qed.

Lemma touches_only_data_del (keys : list string) (k : string) :
  k ∈ keys -> touches_only keys (data_del k).
Proof.
  intros Hk p p' o. unfold data_del. rewrite run_bind. unfold gets at 1.
  destruct (data p !! k); intros [= <- <-]; [|apply same_but_refl].
  apply same_but_with_data. intros k' Hk'. apply lookup_delete_ne. set_solver.
Qed.

Lemma touches_only_data_pop (keys : list string) (k : string) (x : value) :
  k ∈ keys -> touches_only keys (data_pop k x).
Proof.
  intros Hk p p' o. unfold data_pop. rewrite run_bind. unfold gets at 1.
  destruct (data p !! k); intros [= <- <-]; [|apply same_but_refl].
  apply same_but_with_data. intros k' Hk'. apply lookup_delete_ne. set_solver.
Qed.

Section SerializeFrame.

Variable serialize_json : value -> outcome string.

Lemma touches_only_recipient_headers (keys : list string)
    (todo done : list value) :
  "messageVersions" ∈ keys ->
  touches_only keys (recipient_headers serialize_json done todo).
Proof.
  intros Hk. revert done.
  induction todo as [|version rest IH]; intros done.
  - apply touches_only_mret.
  - simpl. apply touches_only_bind; [apply touches_only_lift|]. intros to_email.
    apply touches_only_bind; [apply touches_only_gets|]. intros mm.
    apply touches_only_bind; [apply touches_only_lift|]. intros [override|].
    + apply touches_only_bind; [apply touches_only_gets|]. intros md.
      apply touches_only_bind; [apply touches_only_lift|]. intros s.
      apply touches_only_bind; [apply touches_only_lift|]. intros version'.
      apply touches_only_bind; [by apply touches_only_data_set|]. intros _.
      apply IH.
    + apply IH.
Qed.

Lemma touches_only_burst_recipients :
  touches_only ["to"; "messageVersions"] (burst_recipients serialize_json).
Proof.
  unfold burst_recipients.
  apply touches_only_bind; [apply touches_only_data_pop; set_solver|].
  intros to_list.
  apply touches_only_bind; [apply touches_only_gets|]. intros md.
  apply touches_only_bind; [apply touches_only_lift|]. intros versions.
  apply touches_only_bind; [apply touches_only_data_set; set_solver|].
  intros _.
  apply touches_only_bind; [apply touches_only_gets|]. intros mm.
  case_bool_decide; [apply touches_only_mret|].
  apply touches_only_bind; [apply touches_only_data_get|]. intros mv.
  apply touches_only_bind; [apply touches_only_lift|]. intros todo.
  apply touches_only_recipient_headers. set_solver.
Qed.

Lemma touches_only_serialize_tail :
  touches_only ["headers"]
    (headers ← data_get "headers";
     (if truthy headers then mret tt else data_del "headers");;
     d ← gets data;
     lift (serialize_json (VDict d))).
Proof.
  apply touches_only_bind; [apply touches_only_data_get|]. intros headers.
  apply touches_only_bind.
  { destruct (truthy headers);
      [apply touches_only_mret|apply touches_only_data_del; set_solver]. }
  intros _.
  apply touches_only_bind; [apply touches_only_gets|]. intros d.
  apply touches_only_lift.
Qed.

Lemma touches_only_serialize_data :
  touches_only ["to"; "messageVersions"; "headers"]
    (serialize_data serialize_json).
Proof.
  unfold serialize_data.
  apply touches_only_bind; [apply touches_only_gets|]. intros batch.
  apply touches_only_bind.
  { destruct batch; [|apply touches_only_mret].
    intros q q' o Hrun.
    apply (same_but_mono ["to"; "messageVersions"]); [set_solver|].
    by eapply touches_only_burst_recipients. }
  intros _ q q' o Hrun.
  apply (same_but_mono ["headers"]); [set_solver|].
  by eapply touches_only_serialize_tail.
Qed.

(** X15: whatever the payload holds, and whether it returns or raises,
    [serialize_data] changes nothing but the entries [to], [messageVersions]
    and [headers] of [data]: the recipients, the merge data, the metadata and
    every other field of the request stay as they were; and when the send is
    no batch it changes nothing but [headers]. *)
Theorem serialize_data_touches (p : Payload) :
  same_but ["to"; "messageVersions"; "headers"] p
    (serialize_data serialize_json p).2
  ∧ (is_batch p = false ->
     same_but ["headers"] p (serialize_data serialize_json p).2).
Proof.
  split.
  - destruct (serialize_data serialize_json p) as [o p'] eqn:Hrun.
    by eapply touches_only_serialize_data.
  - intros Hbatch. unfold serialize_data.
    rewrite run_bind. unfold gets at 1. rewrite Hbatch.
    rewrite run_bind. unfold mret at 1, M_ret at 1. cbv beta iota.
    match goal with
    | |- same_but _ _ (?c p).2 => destruct (c p) as [o p'] eqn:Hrun
    end.
    by eapply touches_only_serialize_tail.
Qed.

(** Where the run of [serialize_data] stands before the headers are read. *)
Lemma serialize_data_inv (p p' : Payload) (o : outcome string) :
  serialize_data serialize_json p = (o, p') ->
  (∃ e, o = Raises e
        ∧ (if is_batch p then burst_recipients serialize_json else mret tt) p
          = (Raises e, p'))
  ∨ ∃ p3,
      (if is_batch p then burst_recipients serialize_json else mret tt) p
      = (Returns tt, p3)
      ∧ (o, p')
        = match data p3 !! "headers" with
          | None => (Raises KeyError, p3)
          | Some headers =>
              if truthy headers then (serialize_json (VDict (data p3)), p3)
              else (serialize_json (VDict (delete "headers" (data p3))),
                    with_data (delete "headers") p3)
          end.
Proof.
  unfold serialize_data. rewrite run_bind. unfold gets at 1.
  rewrite run_bind.
  destruct ((if is_batch p then burst_recipients serialize_json else mret tt) p)
    as [[[]|e] p3] eqn:Hblock.
  - rewrite serialize_data_tail. intros <-. right. by exists p3.
  - intros [= <- <-]. left. by exists e.
Qed.

(** X16: when [serialize_data] returns, what it returns is the JSON form of
    [data] as the call left it, and that [data] holds no empty top-level
    headers: the key is there only with headers in it. *)
Theorem serialize_data_returns_final_data (p p' : Payload) (s : string) :
  serialize_data serialize_json p = (Returns s, p') ->
  serialize_json (VDict (data p')) = Returns s
  ∧ ∀ headers, data p' !! "headers" = Some headers -> truthy headers = true.
Proof.
  intros Hrun.
  apply serialize_data_inv in Hrun as [(e & ? & _)|(p3 & _ & Hrun)];
    [discriminate|].
  destruct (data p3 !! "headers") as [headers|] eqn:Hheaders;
    [|discriminate].
  destruct (truthy headers) eqn:Htruthy; injection Hrun as Hs ->.
  - split; [done|]. intros headers' H'. congruence.
  - split; [done|]. intros headers' H'. simpl in H'.
    by rewrite lookup_delete_eq in H'.
Qed.

(** X17: [serialize_data] cannot be called twice on a payload without
    headers. On a payload that is no batch and whose top-level headers are
    empty, as a new payload has them, the call drops the [headers] key and
    gives the JSON form of the rest; [data] without that key makes
    [serialize_data] raise KeyError, so a second call raises and changes
    nothing. *)
Theorem serialize_data_once (p : Payload) (headers : value) :
  is_batch p = false ->
  data p !! "headers" = Some headers ->
  truthy headers = false ->
  let p1 := with_data (delete "headers") p in
  serialize_data serialize_json p
  = (serialize_json (VDict (delete "headers" (data p))), p1)
  ∧ serialize_data serialize_json p1 = (Raises KeyError, p1).
Proof.
  intros Hbatch Hheaders Hfalsy. cbv zeta. split.
  - unfold serialize_data. rewrite run_bind. unfold gets at 1. rewrite Hbatch.
    rewrite run_bind. unfold mret at 1, M_ret at 1. cbv beta iota.
    by rewrite serialize_data_tail, Hheaders, Hfalsy.
  - unfold serialize_data. rewrite run_bind. unfold gets at 1.
    change (is_batch (with_data (delete "headers") p)) with (is_batch p).
    rewrite Hbatch.
    rewrite run_bind. unfold mret at 1, M_ret at 1. cbv beta iota.
    rewrite serialize_data_tail.
    change (data (with_data (delete "headers") p))
      with (delete "headers" (data p)).
    by rewrite lookup_delete_eq.
Qed.

Lemma mapM_raises_at {A B} (f : A -> outcome B) (good : list A) (bad : A)
    (rest : list A) (e : exn) :
  Forall (fun x => ∃ y, f x = Returns y) good ->
  f bad = Raises e ->
  mapM f (good ++ bad :: rest) = Raises e.
Proof.
  intros Hgood Hbad. induction Hgood as [|x good [y Hy] _ IH]; simpl.
  - by rewrite Hbad.
  - rewrite Hy. simpl. by rewrite IH.
Qed.

(** X18: in a batch send, a recipient of [data["to"]] from which no address
    can be read (its [email] subscript raises) makes [serialize_data] raise
    that error after [to] was removed and before [messageVersions] is set:
    the payload is left with neither. *)
Theorem serialize_data_recipient_without_email (p : Payload)
    (good : list value) (bad : value) (rest : list value) (e : exn) :
  is_batch p = true ->
  data p !! "to" = Some (VList (good ++ bad :: rest)) ->
  (∀ to, to ∈ good -> ∃ address, has_email to address) ->
  getitem_str bad "email" = Raises e ->
  ∃ p',
    serialize_data serialize_json p = (Raises e, p')
    ∧ data p' = delete "to" (data p)
    ∧ data p' !! "to" = None
    ∧ data p' !! "messageVersions" = data p !! "messageVersions".
Proof.
  intros Hbatch Hto Hgood Hbad.
  exists (with_data (delete "to") p). split; [|split; [done|split]].
  - unfold serialize_data. rewrite run_bind. unfold gets at 1. rewrite Hbatch.
    rewrite run_bind. unfold burst_recipients.
    rewrite run_bind, (data_pop_to _ (good ++ bad :: rest))
      by (by rewrite Hto).
    rewrite run_bind. unfold gets at 1.
    rewrite run_bind. unfold lift at 1.
    change (py_iter (VList (good ++ bad :: rest)) ≫= _)
      with (mapM (message_version (merge_data (with_data (delete "to") p)))
              (good ++ bad :: rest)).
    rewrite (mapM_raises_at _ good bad rest e); [reflexivity| |].
    + apply Forall_forall. intros to Hin.
      destruct (Hgood to Hin) as [address Haddress].
      eexists. by apply message_version_run.
    + unfold message_version. by rewrite Hbad.
  - simpl. apply lookup_delete_eq.
  - simpl. by rewrite lookup_delete_ne.
Qed.

End SerializeFrame.

(** ** From the request to the response *)

Lemma has_email_objects (recipients : list EmailAddress) :
  Forall2 has_email (email_object <$> recipients) (addr_spec <$> recipients).
Proof.
  induction recipients as [|r recipients IH]; simpl; constructor; [|done].
  apply email_object_has_email.
Qed.

Section RoundTrip.

Variable serialize_json : value -> outcome string.
Variable deserialize_json_response :
  EmailBackend -> Response -> Payload -> Message -> outcome value.

(** X19: the order of the to-recipients carries a batch send through. For a
    batch payload whose recipients [set_recipients] set, with to-addresses
    all different, [serialize_data] makes the i-th entry of
    [messageVersions] the one addressed to the i-th to-recipient, and leaves
    the recipient lists alone; so when the vendor answers with a
    [messageIds] array whose ids, as far as there are to-recipients, are
    scalars the status constructor takes, the recipient of the i-th entry
    is given the i-th id. *)
Theorem batch_ids_reach_their_recipients (self : EmailBackend)
    (response : Response) (p : Payload) (message : Message)
    (parsed : value) (ids : list value) :
  is_batch p = true ->
  recipients_consistent p ->
  NoDup (addr_spec <$> to_recipients p) ->
  let sent := (serialize_data serialize_json p).2 in
  (∃ versions : list value,
     data sent !! "messageVersions" = Some (VList versions)
     ∧ length versions = length (to_recipients p)
     ∧ ∀ (i : nat) (r : EmailAddress),
         to_recipients p !! i = Some r ->
         ∃ entry : gmap string value,
           versions !! i = Some (VDict entry)
           ∧ entry !! "to" = Some (VList [email_object r]))
  ∧ to_recipients sent = to_recipients p
  ∧ all_recipients sent = all_recipients p
  ∧ (content response ≠ "" ->
     deserialize_json_response self response sent message = Returns parsed ->
     has_key parsed "messageId" = false ->
     getitem_str parsed "messageIds" = Returns (VList ids) ->
     (∀ (i : nat) (id : value),
        i < length (to_recipients p) -> ids !! i = Some id ->
        hashable id = true) ->
     ∃ m : gmap string AnymailRecipientStatus,
       parse_recipient_status deserialize_json_response self response sent
         message = Returns m
       ∧ ∀ (i : nat) (r : EmailAddress) (id : value),
           to_recipients p !! i = Some r ->
           ids !! i = Some id ->
           m !! addr_spec r = Some {| message_id := id; status := "queued" |}).
Proof.
  intros Hbatch [_ Hto] Hnodup. cbv zeta.
  destruct (serialize_data_batch serialize_json p
              (email_object <$> to_recipients p)
              (addr_spec <$> to_recipients p) Hbatch Hto
              (has_email_objects _))
    as (o & p' & versions & Hrun & _ & Hmv & Htouched & _).
  destruct (touches_only_serialize_data serialize_json _ _ _ Hrun)
    as (_ & _ & Hall & Hsame & _).
  rewrite Hrun. simpl.
  split; [|split; [done|split; [done|]]].
  - exists versions. split; [done|]. split.
    { rewrite <- (Forall3_length_lr _ _ _ _ Htouched). by rewrite length_fmap. }
    intros i r Hi.
    destruct (version_at (email_object <$> to_recipients p)
                (addr_spec <$> to_recipients p) versions i
                (email_object r) (addr_spec r) (has_email_objects _) Htouched)
      as (version & Hversion & Hform).
    { by rewrite list_lookup_fmap, Hi. }
    { apply email_object_has_email. }
    destruct Hform as [->|(override & s & _ & _ & ->)];
      eexists; (split; [done|]); unfold base_version; by simplify_map_eq.
  - intros Hbody Hparsed Hid Hids Hscalar.
    rewrite (parse_batch_list _ _ _ _ _ _ _ Hbody Hparsed Hid Hids).
    rewrite zipped_ids_hashable.
    2: { intros i to id Hi Hidi. apply (Hscalar i); [|done].
         rewrite Hsame in Hi. by apply lookup_lt_Some in Hi. }
    eexists. split; [reflexivity|].
    intros i r id Hi Hidi. rewrite Hsame.
    assert (zip (to_recipients p) ids !! i = Some (r, id)) as Hzip.
    { apply lookup_zip_with_Some. eauto. }
    rewrite <- (take_drop_middle _ _ _ Hzip).
    apply (store_each_last (fun pair : EmailAddress * value => addr_spec pair.1)
             (fun pair => queued pair.2) _ _ _ (r, id)).
    intros [later id'] Hin. simpl. intros Heq.
    apply list_elem_of_lookup in Hin as [k Hk].
    rewrite lookup_drop in Hk.
    apply lookup_zip_with_Some in Hk as (x & y & [= -> ->] & Hx & _).
    assert (S i + k = i) as Hfalse; [|lia].
    apply (NoDup_lookup _ _ _ (addr_spec r) Hnodup);
      rewrite list_lookup_fmap; [rewrite Hx; simpl; by rewrite Heq|by rewrite Hi].
Qed.

End RoundTrip.

(** ** The further properties on sample data *)

Lemma parse_reports_queued_recipients_witness :
  (∀ r, r ∈ all_recipients three_recipients ->
     is_Some (two_ids_statuses !! addr_spec r))
  ∧ (∀ address st,
       two_ids_statuses !! address = Some st ->
       status st = "queued"
       ∧ (address ∈ addr_spec <$> all_recipients three_recipients
          ∨ address ∈ addr_spec <$> to_recipients three_recipients))
  ∧ ((∀ r, r ∈ to_recipients three_recipients ->
        r ∈ all_recipients three_recipients) ->
     dom two_ids_statuses
     = list_to_set (addr_spec <$> all_recipients three_recipients)).
Proof.
  apply (parse_reports_queued_recipients sample_decoder raising_backend
           (response_of batch_ids_body) three_recipients sample_message).
  vm_compute. reflexivity.
Defined.

Lemma message_id_for_every_recipient_witness :
  (∃ m : gmap string AnymailRecipientStatus,
     parse_recipient_status sample_decoder raising_backend
       (response_of single_id_body) three_recipients sample_message
     = Returns m
     ∧ ∀ address,
         m !! address
         = if bool_decide
                (address ∈ addr_spec <$> all_recipients three_recipients)
           then Some {| message_id := VStr "<202211.1@smtp-relay.mailin.fr>";
                        status := "queued" |}
           else None)
  ∧ parse_recipient_status odd_decoder raising_backend
      (response_of list_id_body) three_recipients sample_message
    = Raises TypeError.
Proof.
  split.
  - apply (message_id_for_every_recipient sample_decoder raising_backend
             (response_of single_id_body) three_recipients sample_message
             single_id_body (VStr "<202211.1@smtp-relay.mailin.fr>")).
    + vm_compute. discriminate.
    + vm_compute. reflexivity.
    + vm_compute. reflexivity.
    + reflexivity.
  - apply (message_id_for_every_recipient odd_decoder raising_backend
             (response_of list_id_body) three_recipients sample_message
             list_id_body (VList [VStr "<id-0@relay>"])).
    + vm_compute. discriminate.
    + vm_compute. reflexivity.
    + vm_compute. reflexivity.
    + reflexivity.
Defined.

Lemma falsy_message_ids_as_empty_body_witness :
  parse_recipient_status edge_decoder raising_backend
    (response_of null_ids_body) three_recipients sample_message
  = parse_recipient_status edge_decoder raising_backend {| content := "" |}
      three_recipients sample_message
  ∧ parse_recipient_status edge_decoder raising_backend
      (response_of null_ids_body) three_recipients sample_message
    = Returns (all_with three_recipients (queued VNone)).
Proof.
  apply (falsy_message_ids_as_empty_body edge_decoder raising_backend
           (response_of null_ids_body) three_recipients sample_message
           null_ids_body VNone).
  - vm_compute. discriminate.
  - vm_compute. reflexivity.
  - vm_compute. reflexivity.
  - vm_compute. reflexivity.
  - reflexivity.
Defined.

Lemma uniterable_message_ids_raise_witness :
  parse_recipient_status edge_decoder raising_backend
    (response_of number_ids_body) three_recipients sample_message
  = Raises TypeError
  ∧ TypeError = TypeError
  ∧ is_api_error TypeError = false.
Proof.
  apply (uniterable_message_ids_raise edge_decoder raising_backend
           (response_of number_ids_body) three_recipients sample_message
           number_ids_body (VInt 5) TypeError).
  - vm_compute. discriminate.
  - vm_compute. reflexivity.
  - vm_compute. reflexivity.
  - vm_compute. reflexivity.
  - reflexivity.
  - reflexivity.
Defined.

Lemma set_extra_headers_reads_back_witness :
  ∃ h' : gmap string (string * value),
    set_extra_headers sample_is_numeric sample_str sample_headers
      (init_payload raising_backend false)
    = (Returns tt,
       with_data (insert "headers" (VHeaders h'))
         (init_payload raising_backend false))
    ∧ (∀ (k : string) (v : value) (n : string),
         (k, v) ∈ sample_headers ->
         is_ascii n = true ->
         lower n = lower k ->
         getitem_str (VHeaders h') n
         = Returns (if sample_is_numeric v then VStr (sample_str v) else v))
    ∧ (∀ n : string,
         is_ascii n = true ->
         lower n ∉ lower <$> sample_headers.*1 ->
         getitem_str (VHeaders h') n = getitem_str (VHeaders ∅) n).
Proof.
  apply (set_extra_headers_reads_back sample_is_numeric sample_str
           sample_headers ∅ (init_payload raising_backend false)).
  - reflexivity.
  - repeat constructor.
  - apply (bool_decide_unpack _). vm_compute. exact I.
Defined.

Example set_extra_headers_any_case :
  (h ← ((set_extra_headers sample_is_numeric sample_str sample_headers;;
         data_get "headers") (init_payload raising_backend false)).1;
   getitem_str h "x-priority")
  = Returns (VStr "1").
Proof. vm_compute. reflexivity. Qed.

Lemma set_metadata_header_witness :
  ∃ (p' : Payload) (h' : gmap string (string * value)),
    set_metadata sample_serialize_json {[ "order" := VInt 1 ]}
      (init_payload raising_backend false) = (Returns tt, p')
    ∧ metadata p' = {[ "order" := VInt 1 ]}
    ∧ data p' !! "headers" = Some (VHeaders h')
    ∧ size h' = (if bool_decide ("x-mailin-custom" ∈ dom (∅ : gmap string (string * value)))
                 then size (∅ : gmap string (string * value))
                 else S (size (∅ : gmap string (string * value))))
    ∧ (∀ n, lower n = "x-mailin-custom" ->
         getitem_str (VHeaders h') n
         = Returns (VStr (sample_body (VDict {[ "order" := VInt 1 ]}))))
    ∧ (∀ n, lower n ≠ "x-mailin-custom" ->
         getitem_str (VHeaders h') n = getitem_str (VHeaders ∅) n).
Proof.
  apply (set_metadata_header sample_serialize_json {[ "order" := VInt 1 ]}
           (sample_body (VDict {[ "order" := VInt 1 ]})) ∅
           (init_payload raising_backend false)).
  - reflexivity.
  - vm_compute. reflexivity.
Defined.

Lemma serialize_data_returns_final_data_witness :
  sample_serialize_json
    (VDict (data (with_data (delete "headers")
                    (init_payload raising_backend false))))
  = Returns "{}"
  ∧ ∀ headers,
      data (with_data (delete "headers") (init_payload raising_backend false))
        !! "headers" = Some headers ->
      truthy headers = true.
Proof.
  apply (serialize_data_returns_final_data sample_serialize_json
           (init_payload raising_backend false)).
  vm_compute. reflexivity.
Defined.

Lemma serialize_data_once_witness :
  serialize_data sample_serialize_json (init_payload raising_backend false)
  = (sample_serialize_json
       (VDict (delete "headers" (data (init_payload raising_backend false)))),
     with_data (delete "headers") (init_payload raising_backend false))
  ∧ serialize_data sample_serialize_json
      (with_data (delete "headers") (init_payload raising_backend false))
    = (Raises KeyError,
       with_data (delete "headers") (init_payload raising_backend false)).
Proof.
  apply (serialize_data_once sample_serialize_json
           (init_payload raising_backend false) (VHeaders ∅)).
  - reflexivity.
  - reflexivity.
  - reflexivity.
Defined.

Lemma serialize_data_recipient_without_email_witness :
  ∃ p',
    serialize_data sample_serialize_json nameless_recipient
    = (Raises KeyError, p')
    ∧ data p' = delete "to" (data nameless_recipient)
    ∧ data p' !! "to" = None
    ∧ data p' !! "messageVersions"
      = data nameless_recipient !! "messageVersions".
Proof.
  apply (serialize_data_recipient_without_email sample_serialize_json
           nameless_recipient [email_object alice]
           (VDict {[ "name" := VStr "Bob" ]}) [] KeyError).
  - reflexivity.
  - vm_compute. reflexivity.
  - intros to Hin. apply list_elem_of_singleton in Hin as ->.
    eexists. apply email_object_has_email.
  - reflexivity.
Defined.

Lemma batch_payload_consistent : recipients_consistent batch_payload.
Proof.
  split.
  - intros r Hr. exact Hr.
  - vm_compute. reflexivity.
Qed.

Lemma batch_ids_reach_their_recipients_witness :
  let sent := (serialize_data sample_serialize_json batch_payload).2 in
  (∃ versions : list value,
     data sent !! "messageVersions" = Some (VList versions)
     ∧ length versions = length (to_recipients batch_payload)
     ∧ ∀ (i : nat) (r : EmailAddress),
         to_recipients batch_payload !! i = Some r ->
         ∃ entry : gmap string value,
           versions !! i = Some (VDict entry)
           ∧ entry !! "to" = Some (VList [email_object r]))
  ∧ to_recipients sent = to_recipients batch_payload
  ∧ all_recipients sent = all_recipients batch_payload
  ∧ (content (response_of batch_ids_body) ≠ "" ->
     sample_decoder raising_backend (response_of batch_ids_body) sent
       sample_message = Returns batch_ids_body ->
     has_key batch_ids_body "messageId" = false ->
     getitem_str batch_ids_body "messageIds"
     = Returns (VList [VStr "<id-1@relay>"; VStr "<id-2@relay>"]) ->
     (∀ (i : nat) (id : value),
        i < length (to_recipients batch_payload) ->
        [VStr "<id-1@relay>"; VStr "<id-2@relay>"] !! i = Some id ->
        hashable id = true) ->
     ∃ m : gmap string AnymailRecipientStatus,
       parse_recipient_status sample_decoder raising_backend
         (response_of batch_ids_body) sent sample_message = Returns m
       ∧ ∀ (i : nat) (r : EmailAddress) (id : value),
           to_recipients batch_payload !! i = Some r ->
           [VStr "<id-1@relay>"; VStr "<id-2@relay>"] !! i = Some id ->
           m !! addr_spec r = Some {| message_id := id; status := "queued" |}).
Proof.
  apply (batch_ids_reach_their_recipients sample_serialize_json sample_decoder
           raising_backend (response_of batch_ids_body) batch_payload
           sample_message batch_ids_body
           [VStr "<id-1@relay>"; VStr "<id-2@relay>"]).
  - reflexivity.
  - exact batch_payload_consistent.
  - apply (bool_decide_unpack _). vm_compute. exact I.
Defined.

(** The same on the sample batch: the ids of the response reach alice and
    bob in the order their versions were sent in. *)
Example batch_ids_reach_alice_and_bob :
  let sent := (serialize_data sample_serialize_json batch_payload).2 in
  let result :=
    parse_recipient_status sample_decoder raising_backend
      (response_of batch_ids_body) sent sample_message in
  status_of result "alice@example.com"
    = Returns (Some (queued (VStr "<id-1@relay>")))
  ∧ status_of result "bob@example.com"
    = Returns (Some (queued (VStr "<id-2@relay>"))).
Proof. vm_compute. auto. Qed.
